(** * Storage layer of the paste service

    A shallow embedding of the storage module of the paste service and of
    the properties its specification states about it.  The module has
    three backends: an in-memory [Map], JSON flat files under
    [./data/pastes], and Upstash Redis.  The module
    [src/lib/storage.ts], which the HTTP route and the page import as
    [@/lib/storage], has the memory and Redis backends only, with the
    same [memGet], [memSet], [redisGet] and [redisSet].

    Conventions of the embedding.
    - Timestamps ([createdAt], [expiresAt], [Date.now()]) are integers [Z];
      [expiresAt : number | null] is an [option Z].  The arithmetic of
      [Math.ceil((a - b) / 1000)] is the exact integer one.
    - Strings are [string]s of 8-bit characters.
    - Every [async] function is a sequential state transformer: it takes the
      state of the world and the value [Date.now()] has during the call, and
      returns its result with the new state.
    - The process-wide [Map] is an insertion-ordered association list, the
      file system and the remote key-value database are finite maps, and
      each of the two external services records the operations issued to it.
    - Paths are POSIX paths; an absolute path is the list of its segments.
    - A file is known by what [JSON.parse] makes of its text.
    - A function that returns nothing returns how its promise ends:
      resolved, or rejected when the function throws. *)

From Stdlib Require Import ZArith Ascii String Sorted Permutation.
From stdpp Require Import gmap strings list fin_maps pretty.

Local Open Scope Z_scope.

(** ** Data model *)

Record Paste : Type := mkPaste {
  id : string;
  title : string;
  content : string;
  language : string;
  createdAt : Z;
  expiresAt : option Z  (* unix ms, None = null = never *)
}.

#[global] Instance Paste_eq_dec : EqDecision Paste.
Proof. solve_decision. Defined.

(** JavaScript coercions used by the expiry tests on a [number | null]. *)

(** Truthiness: [null] and [0] are falsy, every other number is truthy. *)
Definition truthy (x : option Z) : bool :=
  match x with
  | Some t => negb (t =? 0)
  | None => false
  end.

(** ToNumber: [null] compares as [0]. *)
Definition to_number (x : option Z) : Z :=
  match x with
  | Some t => t
  | None => 0
  end.

(** ** Storage mode detection *)

Inductive StorageMode : Type := redis_mode | file_mode | memory_mode.

#[global] Instance StorageMode_eq_dec : EqDecision StorageMode.
Proof. solve_decision. Defined.

(** The name each mode has in [STORAGE_MODE]. *)
Definition mode_name (m : StorageMode) : string :=
  match m with
  | redis_mode => "redis"
  | file_mode => "file"
  | memory_mode => "memory"
  end.

(** The process: the three environment variables the module reads
    ([None] = unset) and the working directory, an absolute path given
    by its list of segments. *)
Record Env : Type := mkEnv {
  STORAGE_MODE : option string;
  UPSTASH_REDIS_REST_URL : option string;
  UPSTASH_REDIS_REST_TOKEN : option string;
  cwd : list string
}.

(** Truthiness of an environment variable: set and not the empty string. *)
Definition env_truthy (v : option string) : bool :=
  match v with
  | Some s => negb (String.eqb s "")
  | None => false
  end.

(** [["redis", "file", "memory"].includes(forced)], returning the mode that
    [forced] names. *)
Definition includes_mode (forced : string) : option StorageMode :=
  if String.eqb forced "redis" then Some redis_mode
  else if String.eqb forced "file" then Some file_mode
  else if String.eqb forced "memory" then Some memory_mode
  else None.

Definition getStorageMode (e : Env) : StorageMode :=
  let forced := STORAGE_MODE e in
  match (if env_truthy forced then includes_mode (default "" forced) else None) with
  | Some m => m
  | None =>
      if env_truthy (UPSTASH_REDIS_REST_URL e) && env_truthy (UPSTASH_REDIS_REST_TOKEN e)
      then redis_mode
      else file_mode (* Default to file storage for local persistence *)
  end.

(** ** Paths *)

(** Splitting a string at each ["/"]. *)
Fixpoint split_slash (s : string) : list string :=
  match s with
  | EmptyString => [EmptyString]
  | String c s' =>
      if Ascii.eqb c "/" then EmptyString :: split_slash s'
      else match split_slash s' with
           | seg :: rest => String c seg :: rest
           | [] => [String c EmptyString]
           end
  end.

(** One step of POSIX path normalisation on an absolute path. *)
Definition push_segment (acc : list string) (seg : string) : list string :=
  if String.eqb seg "" then acc
  else if String.eqb seg "." then acc
  else if String.eqb seg ".." then removelast acc
  else acc ++ [seg].

(** [path.join(base, ...parts)] for an absolute [base]: the parts are
    joined with ["/"] and the result is normalised, so that empty and
    ["."] segments vanish and [".."] climbs one directory. *)
Definition path_join (base : list string) (parts : list string) : list string :=
  foldl push_segment base (concat (map split_slash parts)).

Definition DATA_DIR (e : Env) : list string :=
  path_join (cwd e) ["data"; "pastes"].

(** The character class [[a-zA-Z0-9_-]]. *)
Definition safe_char (c : ascii) : bool :=
  let n := nat_of_ascii c in
  ((97 <=? n) && (n <=? 122) || (65 <=? n) && (n <=? 90) ||
   (48 <=? n) && (n <=? 57) || (n =? 95) || (n =? 45))%nat.

(** [id.replace(/[^a-zA-Z0-9_-]/g, "")] *)
Fixpoint sanitize (s : string) : string :=
  match s with
  | EmptyString => EmptyString
  | String c s' => if safe_char c then String c (sanitize s') else sanitize s'
  end.

Definition getPasteFilePath (e : Env) (id : string) : list string :=
  (* Sanitize id to prevent path traversal *)
  let safeId := sanitize id in
  path_join (DATA_DIR e) [safeId +:+ ".json"].

(** ** In-memory storage *)

(** The process-wide [Map<string, Paste>]: entries in insertion order. *)
Definition PasteMap : Type := list (string * Paste).

Fixpoint Map_get (k : string) (m : PasteMap) : option Paste :=
  match m with
  | [] => None
  | (k', v) :: m' => if String.eqb k k' then Some v else Map_get k m'
  end.

(** [Map.prototype.set]: an existing key keeps its position. *)
Fixpoint Map_set (k : string) (v : Paste) (m : PasteMap) : PasteMap :=
  match m with
  | [] => [(k, v)]
  | (k', v') :: m' =>
      if String.eqb k k' then (k, v) :: m' else (k', v') :: Map_set k v m'
  end.

Definition Map_has (k : string) (m : PasteMap) : bool :=
  match Map_get k m with Some _ => true | None => false end.

(** [Map.prototype.delete]: tells whether the key was there. *)
Definition Map_delete (k : string) (m : PasteMap) : bool * PasteMap :=
  (Map_has k m, List.filter (λ kv, negb (String.eqb k kv.1)) m).

Definition Map_values (m : PasteMap) : list Paste := map snd m.

Definition memGet (id : string) (now : Z) (memStore : PasteMap)
  : option Paste * PasteMap :=
  match Map_get id memStore with
  | Some paste =>
      if truthy (expiresAt paste) && (to_number (expiresAt paste) <? now)
      then (None, (Map_delete id memStore).2)
      else (Some paste, memStore)
  | None => (None, memStore)
  end.

Definition memSet (paste : Paste) (memStore : PasteMap) : PasteMap :=
  Map_set (id paste) paste memStore.

(** ** JSON file storage *)

(** The content of a file, up to JSON decoding: the text [JSON.stringify]
    writes for a paste, which [JSON.parse] reads back as that paste, or
    text on which [JSON.parse] throws. *)
Inductive FileData : Type :=
  | Json (p : Paste)
  | Corrupt (raw : string).

Definition JSON_stringify (p : Paste) : FileData := Json p.

Definition JSON_parse (d : FileData) : option Paste :=
  match d with
  | Json p => Some p
  | Corrupt _ => None
  end.

(** Operations of [fs/promises] the module issues, with their path. *)
Inductive FsOp : Type :=
  | OpMkdir (p : list string)
  | OpReaddir (p : list string)
  | OpReadFile (p : list string)
  | OpWriteFile (p : list string)
  | OpUnlink (p : list string).

Definition op_path (o : FsOp) : list string :=
  match o with
  | OpMkdir p | OpReaddir p | OpReadFile p | OpWriteFile p | OpUnlink p => p
  end.

(** The disk: the regular files by absolute path; the operations issued
    so far, oldest first; the directories made by [mkdir]; the paths at
    which the disk refuses to create a directory or to open a file for
    writing, for a reason of its own (no permission, no room for a new
    entry, a path that is too long as a whole, a file where a directory
    is needed or a directory where a file is needed); and the paths at
    which a write runs out of space after the file was opened and
    emptied, with the text that is left in the file: a proper part of the
    text to write, on which [JSON.parse] throws. *)
Record Disk : Type := mkDisk {
  files : gmap (list string) FileData;
  oplog : list FsOp;
  dirs : list (list string);
  refuses : list string → bool;
  tears : list string → option string
}.

(** The disk after one more operation was issued. *)
Definition log_op (o : FsOp) (d : Disk) : Disk :=
  mkDisk (files d) (oplog d ++ [o]) (dirs d) (refuses d) (tears d).

(** The disk with other files. *)
Definition set_files (F : gmap (list string) FileData) (d : Disk) : Disk :=
  mkDisk F (oplog d) (dirs d) (refuses d) (tears d).

(** The disk with one more directory. *)
Definition add_dir (p : list string) (d : Disk) : Disk :=
  mkDisk (files d) (oplog d) (dirs d ++ [p]) (refuses d) (tears d).

(** [a] is an initial part of the path [b]. *)
Fixpoint is_prefix (a b : list string) : bool :=
  match a, b with
  | [], _ => true
  | x :: a', y :: b' => String.eqb x y && is_prefix a' b'
  | _ :: _, [] => false
  end.

(** The directory [p] exists: it is the root, it was made, it lies above
    a directory that was made, or it lies above a file. *)
Definition dir_exists (d : Disk) (p : list string) : bool :=
  bool_decide (p = []) ||
  existsb (is_prefix p) (dirs d) ||
  existsb (λ kv, is_prefix p kv.1 && negb (bool_decide (p = kv.1)))
          (map_to_list (files d)).

(** The longest file name a directory entry can have, in bytes; the
    names this module writes are ASCII. *)
Definition NAME_MAX : nat := 255.

(** The last segment of [p] is longer than [NAME_MAX]. *)
Definition name_too_long (p : list string) : bool :=
  (NAME_MAX <? String.length (List.last p ""))%nat.

(** [fs.mkdir(p, {recursive: true})]: [false] when it throws.  Making a
    directory that exists succeeds. *)
Definition fs_mkdir (p : list string) (d : Disk) : bool * Disk :=
  let d1 := log_op (OpMkdir p) d in
  if dir_exists d p then (true, d1)
  else if refuses d p then (false, d1)
  else (true, add_dir p d1).

(** [fs.readFile]: [None] when it throws (no such file). *)
Definition fs_readFile (p : list string) (d : Disk) : option FileData * Disk :=
  (files d !! p, log_op (OpReadFile p) d).

(** [fs.writeFile]: [false] when it throws.  It throws, leaving the
    files as they are, when the file cannot be opened: the file name is
    too long, the disk refuses, or the directory of the file does not
    exist.  It throws, leaving a file that does not parse, when the disk
    runs out of space after the file was opened and emptied. *)
Definition fs_writeFile (p : list string) (c : FileData) (d : Disk) : bool * Disk :=
  let d1 := log_op (OpWriteFile p) d in
  if name_too_long p || refuses d p || negb (dir_exists d (removelast p))
  then (false, d1)
  else match tears d p with
       | Some raw => (false, set_files (<[p := Corrupt raw]> (files d)) d1)
       | None => (true, set_files (<[p := c]> (files d)) d1)
       end.

(** [fs.unlink]: [false] when it throws (no such file). *)
Definition fs_unlink (p : list string) (d : Disk) : bool * Disk :=
  (bool_decide (is_Some (files d !! p)),
   log_op (OpUnlink p) (set_files (delete p (files d)) d)).

(** The name of [p] inside [dir], when [p] lies directly in [dir]. *)
Fixpoint child_name (dir p : list string) : option string :=
  match dir, p with
  | [], [n] => Some n
  | a :: dir', b :: p' => if String.eqb a b then child_name dir' p' else None
  | _, _ => None
  end.

(** [fs.readdir]: the names of the files directly inside [dir].  The
    names of its subdirectories are left out: reading one as a file
    throws, and the scan of the directory skips it. *)
Definition fs_readdir (dir : list string) (d : Disk) : list string * Disk :=
  (omap (λ kv, child_name dir kv.1) (map_to_list (files d)),
   log_op (OpReaddir dir) d).

(** The error of [mkdir] is caught and dropped. *)
Definition ensureDataDir (e : Env) (d : Disk) : Disk :=
  (fs_mkdir (DATA_DIR e) d).2.

Definition fileGet (e : Env) (id : string) (now : Z) (d : Disk)
  : option Paste * Disk :=
  let filePath := getPasteFilePath e id in
  let '(content, d1) := fs_readFile filePath d in
  match content with
  | None => (None, d1) (* readFile throws *)
  | Some text =>
      match JSON_parse text with
      | None => (None, d1) (* JSON.parse throws *)
      | Some paste =>
          (* Check if expired *)
          if truthy (expiresAt paste) && (to_number (expiresAt paste) <? now)
          then (* Delete expired paste *)
               (None, (fs_unlink filePath d1).2)
          else (Some paste, d1)
      end
  end.

(** How a call that returns nothing ends: the promise resolves, or it
    rejects (the function throws). *)
Inductive Outcome : Type := Resolved | Rejected.

#[global] Instance Outcome_eq_dec : EqDecision Outcome.
Proof. solve_decision. Defined.

(** The error of [writeFile] is not caught: it rejects the save. *)
Definition fileSet (e : Env) (paste : Paste) (d : Disk) : Outcome * Disk :=
  let d1 := ensureDataDir e d in
  let filePath := getPasteFilePath e (id paste) in
  let '(written, d2) := fs_writeFile filePath (JSON_stringify paste) d1 in
  (if written then Resolved else Rejected, d2).

(** ** Upstash Redis *)

(** Commands sent to the key-value service. *)
Inductive RedisCmd : Type :=
  | GET (key : string)
  | SET (key : string) (value : Paste) (ex : option Z)
  | DEL (key : string).

(** The service: each key holds a value and, when it was written with a
    time to live, the instant (ms) at which the service drops it.  The
    commands received so far are recorded, oldest first. *)
Record Redis : Type := mkRedis {
  db : gmap string (Paste * option Z);
  cmds : list RedisCmd
}.

(** What the service holds under [key] at time [now]. *)
Definition redis_live (key : string) (now : Z) (r : Redis) : option Paste :=
  match db r !! key with
  | Some (v, Some deadline) => if now <? deadline then Some v else None
  | Some (v, None) => Some v
  | None => None
  end.

Definition redis_get (key : string) (now : Z) (r : Redis) : option Paste * Redis :=
  (redis_live key now r, mkRedis (db r) (cmds r ++ [GET key])).

(** [redis.set(key, value)] and [redis.set(key, value, {ex})]: [ex] is a
    time to live in seconds. *)
Definition redis_set (key : string) (v : Paste) (ex : option Z) (now : Z)
  (r : Redis) : Redis :=
  mkRedis (<[key := (v, (λ s, now + 1000 * s) <$> ex)]> (db r))
          (cmds r ++ [SET key v ex]).

(** [redis.del(key)]: the number of keys removed. *)
Definition redis_del (key : string) (now : Z) (r : Redis) : Z * Redis :=
  (match redis_live key now r with Some _ => 1 | None => 0 end,
   mkRedis (delete key (db r)) (cmds r ++ [DEL key])).

(** [Math.ceil(x / 1000)] on an integer [x]. *)
Definition ceil_div_1000 (x : Z) : Z := - (Z.div (- x) 1000).

Definition redisGet (id : string) (now : Z) (r : Redis) : option Paste * Redis :=
  redis_get ("paste:" +:+ id) now r.

Definition redisSet (paste : Paste) (now : Z) (r : Redis) : Redis :=
  let key := "paste:" +:+ id paste in
  let plain := redis_set key paste None now r in
  if truthy (expiresAt paste) then
    let ttlSeconds := ceil_div_1000 (to_number (expiresAt paste) - now) in
    if 0 <? ttlSeconds then redis_set key paste (Some ttlSeconds) now r
    else plain
  else plain.

(** ** Public API *)

(** Everything the module reads and writes. *)
Record World : Type := mkWorld {
  memStore : PasteMap;
  disk : Disk;
  redis : Redis
}.

Definition getPaste (e : Env) (id : string) (now : Z) (w : World)
  : option Paste * World :=
  match getStorageMode e with
  | redis_mode =>
      let '(r, s) := redisGet id now (redis w) in
      (r, mkWorld (memStore w) (disk w) s)
  | file_mode =>
      let '(r, d) := fileGet e id now (disk w) in
      (r, mkWorld (memStore w) d (redis w))
  | memory_mode =>
      let '(r, m) := memGet id now (memStore w) in
      (r, mkWorld m (disk w) (redis w))
  end.

Definition savePaste (e : Env) (paste : Paste) (now : Z) (w : World)
  : Outcome * World :=
  match getStorageMode e with
  | redis_mode =>
      (Resolved, mkWorld (memStore w) (disk w) (redisSet paste now (redis w)))
  | file_mode =>
      let '(r, d) := fileSet e paste (disk w) in
      (r, mkWorld (memStore w) d (redis w))
  | memory_mode =>
      (Resolved, mkWorld (memSet paste (memStore w)) (disk w) (redis w))
  end.

(** [Array.prototype.sort(cmp)]: a stable sort that puts [a] before [b]
    when [cmp a b < 0] and keeps their order when [cmp a b = 0]. *)
Fixpoint sort_insert {A} (cmp : A → A → Z) (x : A) (l : list A) : list A :=
  match l with
  | [] => [x]
  | y :: l' => if cmp x y <=? 0 then x :: y :: l' else y :: sort_insert cmp x l'
  end.

Definition Array_sort {A} (cmp : A → A → Z) (l : list A) : list A :=
  foldr (sort_insert cmp) [] l.

(** The test both listings apply: [!paste.expiresAt || paste.expiresAt > now]. *)
Definition listed (now : Z) (paste : Paste) : bool :=
  negb (truthy (expiresAt paste)) || (now <? to_number (expiresAt paste)).

(** [String.prototype.endsWith] *)
Definition endsWith (s suffix : string) : bool :=
  let n := String.length s in
  let k := String.length suffix in
  (k <=? n)%nat && String.eqb (String.substring (n - k) k s) suffix.

(** One turn of the loop over the directory entries in [getAllPastes]. *)
Definition scan_file (e : Env) (now : Z) (acc : list Paste * Disk) (file : string)
  : list Paste * Disk :=
  let '(pastes, d) := acc in
  if endsWith file ".json" then
    let '(content, d1) := fs_readFile (path_join (DATA_DIR e) [file]) d in
    match content with
    | None => (pastes, d1) (* Skip invalid files *)
    | Some text =>
        match JSON_parse text with
        | None => (pastes, d1) (* Skip invalid files *)
        | Some paste =>
            if listed now paste then (pastes ++ [paste], d1)
            else (* Clean up expired paste *)
                 (pastes, (fs_unlink (path_join (DATA_DIR e) [file]) d1).2)
        end
    end
  else (pastes, d).

(** Get all pastes (only supported for file and memory storage) *)
Definition getAllPastes (e : Env) (now : Z) (w : World) : list Paste * World :=
  match getStorageMode e with
  | memory_mode =>
      let pastes := List.filter (listed now) (Map_values (memStore w)) in
      (Array_sort (λ a b, createdAt b - createdAt a) pastes, w)
  | file_mode =>
      let d1 := ensureDataDir e (disk w) in
      let '(files, d2) := fs_readdir (DATA_DIR e) d1 in
      let '(pastes, d3) := foldl (scan_file e now) ([], d2) files in
      (Array_sort (λ a b, createdAt b - createdAt a) pastes,
       mkWorld (memStore w) d3 (redis w))
  | redis_mode =>
      (* Redis doesn't support listing all keys efficiently *)
      ([], w)
  end.

(** Delete a paste by ID *)
Definition deletePaste (e : Env) (id : string) (now : Z) (w : World)
  : bool * World :=
  match getStorageMode e with
  | memory_mode =>
      let '(r, m) := Map_delete id (memStore w) in
      (r, mkWorld m (disk w) (redis w))
  | file_mode =>
      let '(r, d) := fs_unlink (getPasteFilePath e id) (disk w) in
      (r, mkWorld (memStore w) d (redis w))
  | redis_mode =>
      let '(result, s) := redis_del ("paste:" +:+ id) now (redis w) in
      (0 <? result, mkWorld (memStore w) (disk w) s)
  end.

Definition getCurrentStorageMode (e : Env) : StorageMode := getStorageMode e.

(** ** The two-backend module *)

(** [src/lib/storage.ts], the module behind [@/lib/storage]: Redis when
    both credentials are set, the in-memory [Map] otherwise.  Its
    [memGet], [memSet], [redisGet] and [redisSet] are the ones above, and
    its [Map] is the same [global.__pasteStore]. *)
Module Legacy.

Definition hasRedis (e : Env) : bool :=
  env_truthy (UPSTASH_REDIS_REST_URL e) && env_truthy (UPSTASH_REDIS_REST_TOKEN e).

Definition getPaste (e : Env) (id : string) (now : Z) (w : World)
  : option Paste * World :=
  if hasRedis e then
    let '(r, s) := redisGet id now (redis w) in
    (r, mkWorld (memStore w) (disk w) s)
  else
    let '(r, m) := memGet id now (memStore w) in
    (r, mkWorld m (disk w) (redis w)).

Definition savePaste (e : Env) (paste : Paste) (now : Z) (w : World)
  : Outcome * World :=
  if hasRedis e
  then (Resolved, mkWorld (memStore w) (disk w) (redisSet paste now (redis w)))
  else (Resolved, mkWorld (memSet paste (memStore w)) (disk w) (redis w)).

End Legacy.

(** ** The paste view *)

(** [formatExpiry(ms)] of the view component; a number is printed in
    decimal digits. *)
Definition formatExpiry (ms : option Z) (now : Z) : string :=
  if negb (truthy ms) then "Never"
  else
    let diff := to_number ms - now in
    if diff <=? 0 then "Expired"
    else
      let minutes := Z.div diff 60000 in
      if minutes <? 60 then "in " +:+ pretty minutes +:+ "m"
      else
        let hours := Z.div minutes 60 in
        if hours <? 24 then "in " +:+ pretty hours +:+ "h"
        else "in " +:+ pretty (Z.div hours 24) +:+ "d".

(** [String.prototype.split(sep)] for a separator of one character. *)
Fixpoint String_split (sep : ascii) (s : string) : list string :=
  match s with
  | EmptyString => [EmptyString]
  | String c s' =>
      if Ascii.eqb c sep then EmptyString :: String_split sep s'
      else match String_split sep s' with
           | seg :: rest => String c seg :: rest
           | [] => [String c EmptyString]
           end
  end.

(** [paste.content.split("\n").length] *)
Definition lineCount (content : string) : nat :=
  length (String_split "010" content).

(** ** The HTTP route and the paste page *)

(** White space and line terminators among the characters below 256. *)
Definition is_space (c : ascii) : bool :=
  let n := nat_of_ascii c in
  ((9 <=? n) && (n <=? 13) || (n =? 32) || (n =? 160))%nat.

Fixpoint trimStart (s : string) : string :=
  match s with
  | EmptyString => EmptyString
  | String c s' => if is_space c then trimStart s' else s
  end.

Fixpoint trimEnd (s : string) : string :=
  match s with
  | EmptyString => EmptyString
  | String c s' =>
      match trimEnd s' with
      | EmptyString => if is_space c then EmptyString else String c EmptyString
      | t => String c t
      end
  end.

(** [String.prototype.trim] *)
Definition trim (s : string) : string := trimEnd (trimStart s).

(** What reading a property of an object literal yields: an own
    property with its value, a member inherited from [Object.prototype]
    (a function or an object), or [undefined]. *)
Inductive Lookup : Type :=
  | Own (v : option Z)
  | Inherited
  | Missing.

(** The property names every object inherits from [Object.prototype]. *)
Definition Object_prototype_names : list string :=
  ["constructor"; "hasOwnProperty"; "isPrototypeOf"; "propertyIsEnumerable";
   "toLocaleString"; "toString"; "valueOf"; "__proto__";
   "__defineGetter__"; "__defineSetter__"; "__lookupGetter__"; "__lookupSetter__"].

(** [EXPIRY_OPTIONS[key]] *)
Definition EXPIRY_OPTIONS (key : string) : Lookup :=
  if String.eqb key "never" then Own None
  else if String.eqb key "10m" then Own (Some (10 * 60 * 1000))
  else if String.eqb key "1h" then Own (Some (60 * 60 * 1000))
  else if String.eqb key "1d" then Own (Some (24 * 60 * 60 * 1000))
  else if String.eqb key "1w" then Own (Some (7 * 24 * 60 * 60 * 1000))
  else if existsb (String.eqb key) Object_prototype_names then Inherited
  else Missing.

(** The route [/api/paste]. *)
Module Route.

(** The fields the POST handler takes from the request body.  Of
    [title], [content] and [language] the handler only uses the value when
    it is a string: [None] stands for any other value or none.  Of
    [expiry] it uses the property key the value converts to (the string
    itself, ["undefined"] when the field is absent): [None] stands for a
    value whose conversion throws. *)
Record Body : Type := mkBody {
  body_title : option string;
  body_content : option string;
  body_language : option string;
  body_expiry : option string
}.

Inductive Payload : Type :=
  | IdOf (id : string)
  | ErrorOf (error : string)
  | PasteOf (paste : Paste).

(** [NextResponse.json(payload, { status })] *)
Record Response : Type := mkResponse {
  status : Z;
  payload : Payload
}.

(** What the store is after a request.  When [expiry] names a member
    inherited from [Object.prototype], the handler saves a record whose
    [expiresAt] is a string (the clock reading followed by the text of
    that member): such a record is not a [Paste], and the store that
    holds it is given by the other five fields of the record and the
    store it was saved to. *)
Inductive After : Type :=
  | Store (w : World)
  | StoreAndUntyped (id title content language : string) (createdAt : Z)
                    (before : World).

(** [POST] of the route [/api/paste], which imports [savePaste] from
    [@/lib/storage].  [req] is the parsed body, [None] when [req.json()]
    or the destructuring of the body throws; [fresh] is the value of
    [nanoid(10)]; [now1] and [now2] are the values of [Date.now()] for
    [createdAt] and for [expiresAt], [now3] the time of the save. *)
Definition POST (e : Env) (req : option Body) (fresh : string)
  (now1 now2 now3 : Z) (w : World) : Response * After :=
  match req with
  | None => (mkResponse 500 (ErrorOf "Internal server error"), Store w)
  | Some body =>
      match body_content body with
      | None => (mkResponse 400 (ErrorOf "Content is required"), Store w)
      | Some content =>
          if String.eqb content "" || (String.length (trim content) =? 0)%nat
          then (mkResponse 400 (ErrorOf "Content is required"), Store w)
          else if 500000 <? Z.of_nat (String.length content)
          then (mkResponse 400 (ErrorOf "Content too large (max 500KB)"), Store w)
          else
            match body_expiry body with
            | None => (mkResponse 500 (ErrorOf "Internal server error"), Store w)
            | Some key =>
                let id := fresh in
                let sliced :=
                  match body_title body with
                  | Some t => String.substring 0 200 t
                  | None => ""
                  end in
                let title := if String.eqb sliced "" then "Untitled" else sliced in
                let language := default "plaintext" (body_language body) in
                match EXPIRY_OPTIONS key with
                | Inherited =>
                    (mkResponse 201 (IdOf id),
                     StoreAndUntyped id title (trim content) language now1 w)
                | looked =>
                    let ttlMs := match looked with Own v => v | _ => None end in
                    let paste :=
                      {| id := id;
                         title := title;
                         content := trim content;
                         language := language;
                         createdAt := now1;
                         expiresAt := if truthy ttlMs
                                      then Some (now2 + to_number ttlMs) else None |} in
                    let '(saved, w') := Legacy.savePaste e paste now3 w in
                    match saved with
                    | Resolved => (mkResponse 201 (IdOf id), Store w')
                    | Rejected =>
                        (mkResponse 500 (ErrorOf "Internal server error"), Store w')
                    end
                end
            end
      end
  end.

(** [GET] of the route [/api/paste], which imports [getPaste] from
    [@/lib/storage]; [id] is [req.nextUrl.searchParams.get("id")], [None]
    for [null]. *)
Definition GET (e : Env) (id : option string) (now : Z) (w : World)
  : Response * World :=
  match id with
  | None => (mkResponse 400 (ErrorOf "id is required"), w)
  | Some id =>
      if String.eqb id "" then (mkResponse 400 (ErrorOf "id is required"), w)
      else
        let '(paste, w') := Legacy.getPaste e id now w in
        match paste with
        | None => (mkResponse 404 (ErrorOf "Paste not found or expired"), w')
        | Some paste => (mkResponse 200 (PasteOf paste), w')
        end
  end.

End Route.

(** What the page [/[id]] renders. *)
Inductive Page : Type :=
  | NotFoundPage
  | PasteViewPage (paste : Paste).

Definition PastePage (e : Env) (id : string) (now : Z) (w : World)
  : Page * World :=
  let '(paste, w') := Legacy.getPaste e id now w in
  match paste with
  | None => (NotFoundPage, w')
  | Some paste => (PasteViewPage paste, w')
  end.

(** * Properties *)

(** ** Vocabulary of the statements *)

(** Every character of [s] satisfies [f]. *)
Fixpoint string_forall (f : ascii → bool) (s : string) : bool :=
  match s with
  | EmptyString => true
  | String c s' => f c && string_forall f s'
  end.

(** A path segment that names a directory entry: not empty, not ["."] or
    [".."], and without ["/"]. *)
Definition plain_segment (n : string) : bool :=
  negb (String.eqb n "") && negb (String.eqb n ".") && negb (String.eqb n "..")
  && string_forall (λ c, negb (Ascii.eqb c "/")) n.

(** A file name safe on every platform: a plain segment without [\] and
    without null byte. *)
Definition valid_name (n : string) : bool :=
  plain_segment n
  && string_forall (λ c, negb (Ascii.eqb c "\") && negb (Ascii.eqb c "000")) n.

(** [p] is a file directly inside the directory [dir]. *)
Definition directly_inside (dir p : list string) : Prop :=
  ∃ n, p = dir ++ [n] ∧ valid_name n = true.

(** An operation that stays within the managed directory: creating the
    directory itself, or touching a file directly inside it. *)
Definition op_confined (e : Env) (o : FsOp) : Prop :=
  o = OpMkdir (DATA_DIR e) ∨
  (directly_inside (DATA_DIR e) (op_path o) ∧ ∀ p, o ≠ OpMkdir p).

(** A setting is present: set, and not to the empty string. *)
Definition present (v : option string) : Prop :=
  ∃ s, v = Some s ∧ s ≠ "".

(** The read-time expiry test of [memGet] and [fileGet]. *)
Definition expired_on_read (now : Z) (paste : Paste) : bool :=
  truthy (expiresAt paste) && (to_number (expiresAt paste) <? now).

(** The expiry of [p] has not passed at [now]. *)
Definition not_passed (now : Z) (p : Paste) : Prop :=
  match expiresAt p with
  | Some t => now < t
  | None => True
  end.

(** Newest first, ties allowed. *)
Definition newer_or_same (a b : Paste) : Prop := createdAt b ≤ createdAt a.

(** Strictly newest first. *)
Definition strictly_newer (a b : Paste) : Prop := createdAt b < createdAt a.

(** The order a comparator induces: [a] may stand before [b]. *)
Definition cmp_le {A} (cmp : A → A → Z) (a b : A) : Prop := cmp a b ≤ 0.

(** What the scan of [getAllPastes] keeps of the directory entry [n]:
    the record of a [.json] file that parses and passes the test. *)
Definition listed_record (e : Env) (now : Z) (F : gmap (list string) FileData)
  (n : string) : option Paste :=
  if endsWith n ".json" then
    match F !! (DATA_DIR e ++ [n]) with
    | Some (Json p) => if listed now p then Some p else None
    | _ => None
    end
  else None.

(** The file at [q] is a [.json] file of the managed directory whose
    record fails the listing test. *)
Definition swept (e : Env) (now : Z) (F : gmap (list string) FileData)
  (q : list string) : bool :=
  match child_name (DATA_DIR e) q with
  | Some n =>
      endsWith n ".json" &&
      match F !! q with
      | Some (Json p) => negb (listed now p)
      | _ => false
      end
  | None => false
  end.

(** One call took the disk from [d] to [d']: the operations it issued
    stay within the managed directory, and no file elsewhere changed. *)
Definition confined_step (e : Env) (d d' : Disk) : Prop :=
  (∃ ops, oplog d' = oplog d ++ ops ∧ Forall (op_confined e) ops) ∧
  (∀ q, ¬ directly_inside (DATA_DIR e) q → files d' !! q = files d !! q).

(** The names of a well-formed disk are file names. *)
Definition disk_wf (d : Disk) : bool :=
  forallb (λ kv, forallb plain_segment kv.1) (map_to_list (files d)).

(** The records held by the [.json] files of the managed directory, in
    directory order. *)
Definition dir_records (e : Env) (d : Disk) : list Paste :=
  omap (λ kv, match child_name (DATA_DIR e) kv.1 with
              | Some n => if endsWith n ".json" then JSON_parse kv.2 else None
              | None => None
              end) (map_to_list (files d)).

(** The backend selected by [e] holds a record for [id] at time [now]. *)
Definition holds (e : Env) (id : string) (now : Z) (w : World) : bool :=
  match getStorageMode e with
  | memory_mode => Map_has id (memStore w)
  | file_mode => bool_decide (is_Some (files (disk w) !! getPasteFilePath e id))
  | redis_mode => bool_decide (is_Some (redis_live ("paste:" +:+ id) now (redis w)))
  end.

(** The backend selected by [e] stores the record [p] under [key]. *)
Definition stored (e : Env) (key : string) (p : Paste) (w : World) : Prop :=
  match getStorageMode e with
  | memory_mode => Map_get key (memStore w) = Some p
  | file_mode => files (disk w) !! getPasteFilePath e key = Some (Json p)
  | redis_mode => ∃ deadline, db (redis w) !! ("paste:" +:+ key) = Some (p, deadline)
  end.

(** Two ids name the same record on the backend [e] selects: the file
    backend keys on the sanitized id, the other two on the raw id. *)
Definition aliases (e : Env) (a b : string) : Prop :=
  match getStorageMode e with
  | file_mode => sanitize a = sanitize b
  | _ => a = b
  end.

#[global] Instance aliases_dec e a b : Decision (aliases e a b).
Proof. unfold aliases. destruct (getStorageMode e); apply _. Defined.

(** The two worlds hold the same records: same [Map], same files, same
    remote database (the logs of issued operations may differ). *)
Definition same_contents (w w' : World) : Prop :=
  memStore w' = memStore w ∧ files (disk w') = files (disk w) ∧
  db (redis w') = db (redis w).

(** The number of occurrences of [c] in [s]. *)
Fixpoint count_char (c : ascii) (s : string) : nat :=
  match s with
  | EmptyString => 0%nat
  | String c' s' => ((if Ascii.eqb c' c then 1 else 0) + count_char c s')%nat
  end.

(** The content of a request is blank: not a string, or a string of
    white space only. *)
Definition blank (c : option string) : Prop :=
  match c with
  | Some s => string_forall is_space s = true
  | None => True
  end.

(** The time to live the options table gives for [key], if any. *)
Definition ttl_of (key : string) : option Z :=
  match EXPIRY_OPTIONS key with
  | Own v => v
  | _ => None
  end.

(** The record the POST handler builds from a request whose content is
    the string [c] and whose expiry key is [key]. *)
Definition created_paste (body : Route.Body) (c key fresh : string) (now1 now2 : Z)
  : Paste :=
  let sliced :=
    match Route.body_title body with
    | Some t => String.substring 0 200 t
    | None => ""
    end in
  {| id := fresh;
     title := if String.eqb sliced "" then "Untitled" else sliced;
     content := trim c;
     language := default "plaintext" (Route.body_language body);
     createdAt := now1;
     expiresAt := (λ ttl, now2 + ttl) <$> ttl_of key |}.

(** The request passes the checks of the POST handler: its content is
    the string [c], not blank and of at most 500000 characters, and its
    expiry converts to the property key [key]. *)
Definition passes_checks (body : Route.Body) (c key : string) : Prop :=
  Route.body_content body = Some c ∧ ¬ blank (Some c) ∧
  Z.of_nat (String.length c) ≤ 500000 ∧
  Route.body_expiry body = Some key.

(** The request passes the checks and its expiry key names no member
    inherited from [Object.prototype]. *)
Definition acceptable (body : Route.Body) (c key : string) : Prop :=
  passes_checks body c key ∧ EXPIRY_OPTIONS key ≠ Inherited.

(** The disk opens the file [fileSet] writes for [id]: the name of the
    file is not longer than [NAME_MAX], the disk does not refuse the
    file, and the managed directory exists or can be made. *)
Definition write_opens (e : Env) (id : string) (d : Disk) : bool :=
  (String.length (sanitize id +:+ ".json") <=? NAME_MAX)%nat &&
  negb (refuses d (getPasteFilePath e id)) &&
  (dir_exists d (DATA_DIR e) || negb (refuses d (DATA_DIR e))).

(** The disk takes the file [fileSet] writes for [id]: it opens the file
    and does not run out of space while writing it. *)
Definition write_accepted (e : Env) (id : string) (d : Disk) : bool :=
  write_opens e id d &&
  match tears d (getPasteFilePath e id) with Some _ => false | None => true end.

(** What [fileSet] leaves in the file of [p]: the record when the disk
    takes the write, torn text when it runs out of space, and what was
    there when the file cannot be opened ([None]). *)
Definition write_leaves (e : Env) (p : Paste) (d : Disk) : option FileData :=
  if write_opens e (id p) d then
    match tears d (getPasteFilePath e (id p)) with
    | Some raw => Some (Corrupt raw)
    | None => Some (Json p)
    end
  else None.

(** The save of [p] is one the selected backend takes: only the disk
    turns a save down. *)
Definition save_accepted (e : Env) (p : Paste) (w : World) : bool :=
  match getStorageMode e with
  | file_mode => write_accepted e (id p) (disk w)
  | _ => true
  end.

(** ** Sample configurations and records *)

Definition env_memory : Env := mkEnv (Some "memory") None None ["srv"; "app"].
Definition env_file : Env := mkEnv None None None ["srv"; "app"].
Definition env_redis : Env :=
  mkEnv None (Some "https://kv.example") (Some "token") ["srv"; "app"].

Definition empty_world : World :=
  mkWorld [] (mkDisk ∅ [] [] (λ _, false) (λ _, None)) (mkRedis ∅ []).

Definition paste_a : Paste :=
  mkPaste "V1StGXR8_Z" "Untitled" "hello" "plaintext" 1000 (Some 5000).
Definition paste_b : Paste :=
  mkPaste "k3Jx-0aQpL" "notes" "world" "markdown" 1000 None.
Definition paste_zero : Paste :=
  mkPaste "Zero000000" "epoch" "x" "plaintext" 2000 (Some 0).
Definition paste_dots : Paste :=
  mkPaste "../" "dots" "shared" "plaintext" 3000 None.

(** Two records created in the same millisecond, in memory. *)
Definition world_ties : World :=
  (savePaste env_memory paste_b 1000
     (savePaste env_memory paste_a 1000 empty_world).2).2.

(** The managed directory with a record that expires at 5000, one that
    never expires, and a file that does not parse. *)
Definition world_dir : World :=
  let w := (savePaste env_file paste_b 1000
              (savePaste env_file paste_a 1000 empty_world).2).2 in
  mkWorld (memStore w)
          (set_files (<[["srv"; "app"; "data"; "pastes"; "broken.json"] := Corrupt "{"]>
                        (files (disk w)))
                     (disk w))
          (redis w).

(** The managed directory after a record was saved under the id ["../"]. *)
Definition world_shared : World :=
  (savePaste env_file paste_dots 3000 empty_world).2.

(** A record with [expiresAt = 0], held by each backend. *)
Definition world_zero (e : Env) : World :=
  (savePaste e paste_zero 2000 empty_world).2.

(** A record whose id has 251 characters, all of them kept by the
    sanitizer: its file name has 256. *)
Fixpoint String_repeat (c : ascii) (n : nat) : string :=
  match n with
  | O => EmptyString
  | S n' => String c (String_repeat c n')
  end.
Definition paste_long : Paste :=
  mkPaste (String_repeat "a" 251) "long" "x" "plaintext" 1000 None.

(** Requests: a snippet with surrounding white space that expires in ten
    minutes, and one whose content is white space only. *)
Definition body_hello : Route.Body :=
  Route.mkBody (Some "") (Some "  hello
") None (Some "10m").
Definition body_blank : Route.Body :=
  Route.mkBody (Some "t") (Some "   ") (Some "go") (Some "never").

(** A request whose expiry names a member of [Object.prototype]. *)
Definition body_inherited : Route.Body :=
  Route.mkBody None (Some "hello") None (Some "constructor").

(** ** Strings and paths *)

Lemma string_forall_app f s1 s2 :
  string_forall f (s1 +:+ s2) = string_forall f s1 && string_forall f s2.
Proof.
  induction s1 as [|c s1 IH]; simpl; [done|].
  rewrite IH. by rewrite andb_assoc.
Qed.

Lemma string_forall_impl (f g : ascii → bool) s :
  (∀ c, f c = true → g c = true) →
  string_forall f s = true → string_forall g s = true.
Proof.
  intros Hfg. induction s as [|c s IH]; simpl; [done|].
  intros [Hc Hs]%andb_true_iff. rewrite (Hfg _ Hc). simpl. auto.
Qed.

Lemma sanitize_safe s : string_forall safe_char (sanitize s) = true.
Proof.
  induction s as [|c s IH]; simpl; [done|].
  destruct (safe_char c) eqn:Hc; simpl; [|done]. by rewrite Hc.
Qed.

Lemma sanitize_idem s : sanitize (sanitize s) = sanitize s.
Proof.
  induction s as [|c s IH]; simpl; [done|].
  destruct (safe_char c) eqn:Hc; simpl; [|done]. by rewrite Hc, IH.
Qed.

Lemma sanitize_fixed s : string_forall safe_char s = true → sanitize s = s.
Proof.
  induction s as [|c s IH]; simpl; [done|].
  intros [Hc Hs]%andb_true_iff. rewrite Hc. by rewrite IH.
Qed.

Lemma safe_char_not_slash c :
  safe_char c = true → negb (Ascii.eqb c "/") = true.
Proof. intros Hc. by destruct (Ascii.eqb_spec c "/") as [->|_]. Qed.

Lemma safe_char_not_special c :
  safe_char c = true →
  negb (Ascii.eqb c "\") && negb (Ascii.eqb c "000") = true.
Proof.
  intros Hc.
  destruct (Ascii.eqb_spec c "\") as [->|_]; [done|].
  destruct (Ascii.eqb_spec c "000") as [->|_]; done.
Qed.

Lemma length_append s1 s2 :
  String.length (s1 +:+ s2) = (String.length s1 + String.length s2)%nat.
Proof. induction s1 as [|c s1 IH]; simpl; [done|]. by rewrite IH. Qed.

Lemma json_name_plain s :
  string_forall safe_char s = true → plain_segment (s +:+ ".json") = true.
Proof.
  intros Hs. unfold plain_segment.
  assert (Hlen : (5 ≤ String.length (s +:+ ".json"))%nat)
    by (rewrite length_append; simpl; lia).
  destruct (String.eqb_spec (s +:+ ".json") "") as [Heq|_];
    [rewrite Heq in Hlen; simpl in Hlen; lia|].
  destruct (String.eqb_spec (s +:+ ".json") ".") as [Heq|_];
    [rewrite Heq in Hlen; simpl in Hlen; lia|].
  destruct (String.eqb_spec (s +:+ ".json") "..") as [Heq|_];
    [rewrite Heq in Hlen; simpl in Hlen; lia|].
  simpl. rewrite string_forall_app, andb_true_r.
  eapply string_forall_impl; [|exact Hs]. apply safe_char_not_slash.
Qed.

Lemma json_name_valid s :
  string_forall safe_char s = true → valid_name (s +:+ ".json") = true.
Proof.
  intros Hs. unfold valid_name. rewrite (json_name_plain _ Hs). simpl.
  rewrite string_forall_app, andb_true_r.
  eapply string_forall_impl; [|exact Hs]. apply safe_char_not_special.
Qed.

Lemma split_slash_plain n :
  string_forall (λ c, negb (Ascii.eqb c "/")) n = true → split_slash n = [n].
Proof.
  induction n as [|c n IH]; simpl; [done|].
  intros [Hc Hn]%andb_true_iff. rewrite (IH Hn).
  by destruct (Ascii.eqb c "/").
Qed.

Lemma path_join_plain base n :
  plain_segment n = true → path_join base [n] = base ++ [n].
Proof.
  unfold plain_segment, path_join.
  intros [[[H1 H2]%andb_true_iff H3]%andb_true_iff H4]%andb_true_iff.
  simpl. rewrite (split_slash_plain _ H4). simpl. unfold push_segment.
  apply negb_true_iff in H1, H2, H3. by rewrite H1, H2, H3.
Qed.

Lemma DATA_DIR_eq e : DATA_DIR e = cwd e ++ ["data"; "pastes"].
Proof.
  unfold DATA_DIR, path_join. simpl. unfold push_segment. simpl.
  by rewrite <- app_assoc.
Qed.

Lemma getPasteFilePath_eq e id :
  getPasteFilePath e id = DATA_DIR e ++ [sanitize id +:+ ".json"].
Proof.
  unfold getPasteFilePath. apply path_join_plain, json_name_plain, sanitize_safe.
Qed.

Lemma getPasteFilePath_inside e id :
  directly_inside (DATA_DIR e) (getPasteFilePath e id).
Proof.
  exists (sanitize id +:+ ".json"). split; [apply getPasteFilePath_eq|].
  apply json_name_valid, sanitize_safe.
Qed.

Lemma append_inj_r (s1 s2 t : string) : s1 +:+ t = s2 +:+ t → s1 = s2.
Proof.
  revert s2. induction s1 as [|c s1 IH]; intros [|c' s2] Heq; simpl in Heq.
  - done.
  - apply (f_equal String.length) in Heq. simpl in Heq.
    rewrite !length_append in Heq. simpl in Heq. lia.
  - apply (f_equal String.length) in Heq. simpl in Heq.
    rewrite !length_append in Heq. simpl in Heq. lia.
  - injection Heq as -> Heq. by rewrite (IH _ Heq).
Qed.

Lemma getPasteFilePath_inj e a b :
  getPasteFilePath e a = getPasteFilePath e b → sanitize a = sanitize b.
Proof.
  rewrite !getPasteFilePath_eq. intros Heq%app_inv_head.
  injection Heq as Heq. by apply append_inj_r in Heq.
Qed.

(** ** Storage mode detection *)

Lemma includes_mode_name m : includes_mode (mode_name m) = Some m.
Proof. by destruct m. Qed.

Lemma includes_mode_Some s m : includes_mode s = Some m → s = mode_name m.
Proof.
  unfold includes_mode.
  destruct (String.eqb_spec s "redis") as [->|_]; [by intros [= <-]|].
  destruct (String.eqb_spec s "file") as [->|_]; [by intros [= <-]|].
  destruct (String.eqb_spec s "memory") as [->|_]; [by intros [= <-]|].
  done.
Qed.

Lemma env_truthy_present v : env_truthy v = true ↔ present v.
Proof.
  unfold env_truthy, present. destruct v as [s|].
  - destruct (String.eqb_spec s "") as [->|Hne]; simpl.
    + split; [done|]. intros (s & [= <-] & Hs). done.
    + split; [|done]. intros _. by exists s.
  - split; [done|]. by intros (s & ? & _).
Qed.

Lemma forced_unrecognized e :
  (∀ m, STORAGE_MODE e ≠ Some (mode_name m)) →
  (if env_truthy (STORAGE_MODE e)
   then includes_mode (default "" (STORAGE_MODE e)) else None) = None.
Proof.
  intros Hno. destruct (STORAGE_MODE e) as [s|] eqn:Hs; simpl; [|done].
  destruct (negb (String.eqb s "")); [|done].
  destruct (includes_mode s) as [m|] eqn:Hm; [|done].
  apply includes_mode_Some in Hm. subst s. by destruct (Hno m).
Qed.

(** C4.  The selected backend is a function of the configuration alone:
    an override that names one of the three kinds is used; otherwise the
    remote backend is used when both credentials are present; otherwise
    the file backend is used.  The ephemeral backend is selected only by
    an override that names it. *)
Theorem getStorageMode_selection (e : Env) :
  (∀ m, STORAGE_MODE e = Some (mode_name m) → getStorageMode e = m) ∧
  ((∀ m, STORAGE_MODE e ≠ Some (mode_name m)) →
   present (UPSTASH_REDIS_REST_URL e) ∧ present (UPSTASH_REDIS_REST_TOKEN e) →
   getStorageMode e = redis_mode) ∧
  ((∀ m, STORAGE_MODE e ≠ Some (mode_name m)) →
   ¬ (present (UPSTASH_REDIS_REST_URL e) ∧ present (UPSTASH_REDIS_REST_TOKEN e)) →
   getStorageMode e = file_mode) ∧
  (getStorageMode e = memory_mode → STORAGE_MODE e = Some "memory").
Proof.
  split; [|split; [|split]].
  - intros m Hm. unfold getStorageMode. rewrite Hm. simpl.
    by destruct m.
  - intros Hno [Hu Ht]. unfold getStorageMode. rewrite (forced_unrecognized _ Hno).
    apply env_truthy_present in Hu, Ht. by rewrite Hu, Ht.
  - intros Hno Hcred. unfold getStorageMode. rewrite (forced_unrecognized _ Hno).
    destruct (env_truthy (UPSTASH_REDIS_REST_URL e)) eqn:Hu; [|done].
    destruct (env_truthy (UPSTASH_REDIS_REST_TOKEN e)) eqn:Ht; [|done].
    destruct Hcred. split; by apply env_truthy_present.
  - unfold getStorageMode.
    destruct (STORAGE_MODE e) as [s|]; simpl.
    + destruct (negb (String.eqb s "")).
      * destruct (includes_mode s) as [m|] eqn:Hm.
        -- intros ->. by rewrite (includes_mode_Some _ _ Hm).
        -- by destruct (_ && _).
      * by destruct (_ && _).
    + by destruct (_ && _).
Qed.

Lemma getStorageMode_selection_witness :
  getStorageMode env_memory = memory_mode ∧
  getStorageMode env_redis = redis_mode ∧
  getStorageMode env_file = file_mode.
Proof.
  split; [|split].
  - apply (proj1 (getStorageMode_selection env_memory) memory_mode). reflexivity.
  - apply (proj1 (proj2 (getStorageMode_selection env_redis))).
    + intros m. discriminate.
    + split; eexists; (split; [reflexivity|discriminate]).
  - apply (proj1 (proj2 (proj2 (getStorageMode_selection env_file)))).
    + intros m. discriminate.
    + intros [(s & Hs & _) _]. discriminate Hs.
Defined.

(** ** The in-memory map *)

Lemma Map_get_set_eq k v m : Map_get k (Map_set k v m) = Some v.
Proof.
  induction m as [|[k' v'] m IH]; simpl.
  - by rewrite String.eqb_refl.
  - destruct (String.eqb k k') eqn:Hk; simpl.
    + by rewrite String.eqb_refl.
    + by rewrite Hk.
Qed.

Lemma Map_get_set_ne k k' v m :
  k ≠ k' → Map_get k' (Map_set k v m) = Map_get k' m.
Proof.
  intros Hne. induction m as [|[k0 v0] m IH]; simpl.
  - by destruct (String.eqb_spec k' k) as [->|_].
  - destruct (String.eqb_spec k k0) as [->|Hk0]; simpl.
    + by destruct (String.eqb_spec k' k0) as [->|_].
    + by rewrite IH.
Qed.

Lemma Map_get_delete_eq k m : Map_get k (Map_delete k m).2 = None.
Proof.
  simpl. induction m as [|[k' v'] m IH]; simpl; [done|].
  destruct (String.eqb k k') eqn:Hk; simpl; [done|]. by rewrite Hk.
Qed.

Lemma Map_get_delete_ne k k' m :
  k ≠ k' → Map_get k' (Map_delete k m).2 = Map_get k' m.
Proof.
  intros Hne. simpl. induction m as [|[k0 v0] m IH]; simpl; [done|].
  destruct (String.eqb_spec k k0) as [->|Hk0]; simpl.
  - by destruct (String.eqb_spec k' k0) as [->|_].
  - by rewrite IH.
Qed.

Lemma Map_has_delete k m : Map_has k (Map_delete k m).2 = false.
Proof. unfold Map_has. by rewrite Map_get_delete_eq. Qed.

(** ** Expiry tests *)

Lemma expired_on_read_before now p t :
  expiresAt p = Some t → now ≤ t → expired_on_read now p = false.
Proof.
  intros Ht Hle. unfold expired_on_read. rewrite Ht. simpl.
  apply andb_false_iff. right. lia.
Qed.

Lemma expired_on_read_after now p t :
  expiresAt p = Some t → t ≠ 0 → t < now → expired_on_read now p = true.
Proof.
  intros Ht H0 Hlt. unfold expired_on_read. rewrite Ht. simpl.
  apply andb_true_iff. split; [|lia]. apply negb_true_iff. lia.
Qed.

Lemma expired_on_read_never now p :
  truthy (expiresAt p) = false → expired_on_read now p = false.
Proof. intros H. unfold expired_on_read. by rewrite H. Qed.

Lemma not_passed_live now p : not_passed now p → expired_on_read now p = false.
Proof.
  unfold not_passed. destruct (expiresAt p) as [t|] eqn:Ht.
  - intros Hlt. apply (expired_on_read_before _ _ t); [done|lia].
  - intros _. apply expired_on_read_never. by rewrite Ht.
Qed.

(** ** Reading one record *)

Lemma memGet_live id now m p :
  Map_get id m = Some p → expired_on_read now p = false →
  memGet id now m = (Some p, m).
Proof.
  intros Hget Hlive. unfold memGet. rewrite Hget.
  unfold expired_on_read in Hlive. by rewrite Hlive.
Qed.

Lemma memGet_expired id now m p :
  Map_get id m = Some p → expired_on_read now p = true →
  memGet id now m = (None, (Map_delete id m).2).
Proof.
  intros Hget Hexp. unfold memGet. rewrite Hget.
  unfold expired_on_read in Hexp. by rewrite Hexp.
Qed.

Lemma fileGet_live e id now d p :
  files d !! getPasteFilePath e id = Some (Json p) →
  expired_on_read now p = false →
  fileGet e id now d =
    (Some p, mkDisk (files d) (oplog d ++ [OpReadFile (getPasteFilePath e id)])
                    (dirs d) (refuses d) (tears d)).
Proof.
  intros Hget Hlive. unfold fileGet, fs_readFile. rewrite Hget. simpl.
  unfold expired_on_read in Hlive. by rewrite Hlive.
Qed.

Lemma fileGet_expired e id now d p :
  files d !! getPasteFilePath e id = Some (Json p) →
  expired_on_read now p = true →
  fileGet e id now d =
    (None, mkDisk (delete (getPasteFilePath e id) (files d))
                  (oplog d ++ [OpReadFile (getPasteFilePath e id);
                               OpUnlink (getPasteFilePath e id)])
                  (dirs d) (refuses d) (tears d)).
Proof.
  intros Hget Hexp. unfold fileGet, fs_readFile. rewrite Hget. simpl.
  unfold expired_on_read in Hexp. rewrite Hexp.
  unfold fs_unlink, log_op, set_files. cbn [snd files oplog dirs refuses tears].
  by rewrite <- app_assoc.
Qed.

Lemma fileGet_absent e id now d :
  files d !! getPasteFilePath e id = None →
  fileGet e id now d =
    (None, mkDisk (files d) (oplog d ++ [OpReadFile (getPasteFilePath e id)])
                    (dirs d) (refuses d) (tears d)).
Proof. intros Hget. unfold fileGet, fs_readFile. by rewrite Hget. Qed.

Lemma fileGet_corrupt e id now d raw :
  files d !! getPasteFilePath e id = Some (Corrupt raw) →
  fileGet e id now d =
    (None, mkDisk (files d) (oplog d ++ [OpReadFile (getPasteFilePath e id)])
                    (dirs d) (refuses d) (tears d)).
Proof. intros Hget. unfold fileGet, fs_readFile. by rewrite Hget. Qed.

Lemma fileGet_result e id now d :
  (fileGet e id now d).1 =
    match files d !! getPasteFilePath e id with
    | Some (Json p) => if expired_on_read now p then None else Some p
    | _ => None
    end.
Proof.
  destruct (files d !! getPasteFilePath e id) as [[p|raw]|] eqn:Hf.
  - destruct (expired_on_read now p) eqn:Hexp.
    + by rewrite (fileGet_expired _ _ _ _ p).
    + by rewrite (fileGet_live _ _ _ _ p).
  - by rewrite (fileGet_corrupt _ _ _ _ raw).
  - by rewrite fileGet_absent.
Qed.

Lemma fileGet_reads e id now d :
  OpReadFile (getPasteFilePath e id) ∈ oplog (fileGet e id now d).2.
Proof.
  destruct (files d !! getPasteFilePath e id) as [[p|raw]|] eqn:Hf.
  - destruct (expired_on_read now p) eqn:Hexp.
    + rewrite (fileGet_expired _ _ _ _ p) by done. simpl.
      apply elem_of_app. right. by left.
    + rewrite (fileGet_live _ _ _ _ p) by done. simpl.
      apply elem_of_app. right. by left.
  - rewrite (fileGet_corrupt _ _ _ _ raw) by done. simpl.
    apply elem_of_app. right. by left.
  - rewrite fileGet_absent by done. simpl.
    apply elem_of_app. right. by left.
Qed.

(** ** The remote backend *)

Lemma ceil_div_1000_bounds x :
  1000 * (ceil_div_1000 x - 1) < x ≤ 1000 * ceil_div_1000 x.
Proof.
  unfold ceil_div_1000.
  pose proof (Z.div_mod (- x) 1000 ltac:(lia)) as Hdm.
  pose proof (Z.mod_pos_bound (- x) 1000 ltac:(lia)) as Hb.
  lia.
Qed.

Lemma redis_live_set key v ex now0 now r :
  redis_live key now (redis_set key v ex now0 r) =
    match ex with
    | Some s => if now <? now0 + 1000 * s then Some v else None
    | None => Some v
    end.
Proof.
  unfold redis_live, redis_set. simpl. rewrite lookup_insert_eq.
  by destruct ex.
Qed.

(** C5.  At a time [now] that is not before the epoch, the remote [set]
    of a paste whose [expiresAt] is present computes the remaining seconds
    [ceil((expiresAt - now) / 1000)]; it writes with that time to live when
    it is positive and with none when it is not; a paste whose [expiresAt]
    is absent is written with none.  The remaining seconds are the ceiling:
    the least number of whole seconds that covers the remaining time. *)
Theorem redisSet_ttl (p : Paste) (now : Z) (r : Redis) :
  0 ≤ now →
  let key := "paste:" +:+ id p in
  (∀ t, expiresAt p = Some t →
        1000 * (ceil_div_1000 (t - now) - 1) < t - now ≤ 1000 * ceil_div_1000 (t - now)) ∧
  (∀ t, expiresAt p = Some t → 0 < ceil_div_1000 (t - now) →
        redisSet p now r = redis_set key p (Some (ceil_div_1000 (t - now))) now r) ∧
  (∀ t, expiresAt p = Some t → ceil_div_1000 (t - now) ≤ 0 →
        redisSet p now r = redis_set key p None now r) ∧
  (expiresAt p = None → redisSet p now r = redis_set key p None now r).
Proof.
  intros Hnow key. split; [|split; [|split]].
  - intros t _. apply ceil_div_1000_bounds.
  - intros t Ht Hpos. unfold redisSet. rewrite Ht. simpl.
    pose proof (ceil_div_1000_bounds (t - now)) as Hb.
    destruct (Z.eqb_spec t 0) as [->|_]; [lia|]. simpl.
    destruct (Z.ltb_spec 0 (ceil_div_1000 (t - now))); [done|lia].
  - intros t Ht Hle. unfold redisSet. rewrite Ht. simpl.
    destruct (negb (t =? 0)); [|done].
    destruct (Z.ltb_spec 0 (ceil_div_1000 (t - now))); [lia|done].
  - intros Ht. unfold redisSet. by rewrite Ht.
Qed.

Lemma redisSet_ttl_witness :
  redisSet paste_a 4200 (redis empty_world)
    = redis_set "paste:V1StGXR8_Z" paste_a (Some 1) 4200 (redis empty_world) ∧
  redisSet paste_a 5000 (redis empty_world)
    = redis_set "paste:V1StGXR8_Z" paste_a None 5000 (redis empty_world) ∧
  redisSet paste_b 4200 (redis empty_world)
    = redis_set "paste:k3Jx-0aQpL" paste_b None 4200 (redis empty_world).
Proof.
  split; [|split].
  - apply (proj1 (proj2 (redisSet_ttl paste_a 4200 (redis empty_world) ltac:(lia)))
             5000); [reflexivity|reflexivity].
  - apply (proj1 (proj2 (proj2 (redisSet_ttl paste_a 5000 (redis empty_world) ltac:(lia))))
             5000); [reflexivity|vm_compute; discriminate].
  - apply (proj2 (proj2 (proj2 (redisSet_ttl paste_b 4200 (redis empty_world) ltac:(lia))))).
    reflexivity.
Defined.

(** Before the epoch the one exception shows: [expiresAt = 0] is falsy, so
    the record is written without time to live although seconds remain. *)
Example redisSet_before_epoch :
  ceil_div_1000 (0 - -5000) = 5 ∧
  redisSet paste_zero (-5000) (redis empty_world)
    = redis_set "paste:Zero000000" paste_zero None (-5000) (redis empty_world).
Proof. split; reflexivity. Qed.

Lemma redisSet_live p now0 now r :
  not_passed now p →
  redis_live ("paste:" +:+ id p) now (redisSet p now0 r) = Some p.
Proof.
  intros Hnp. unfold redisSet, not_passed in *.
  destruct (expiresAt p) as [t|]; simpl.
  - destruct (negb (t =? 0)); [|by rewrite redis_live_set].
    pose proof (ceil_div_1000_bounds (t - now0)) as Hb.
    destruct (Z.ltb_spec 0 (ceil_div_1000 (t - now0))); rewrite redis_live_set; [|done].
    destruct (Z.ltb_spec now (now0 + 1000 * ceil_div_1000 (t - now0))); [done|lia].
  - by rewrite redis_live_set.
Qed.

(** ** Writing one file *)

Lemma is_prefix_refl p : is_prefix p p = true.
Proof. induction p as [|x p IH]; simpl; [done|]. by rewrite String.eqb_refl. Qed.

Lemma ensureDataDir_files e d : files (ensureDataDir e d) = files d.
Proof.
  unfold ensureDataDir, fs_mkdir.
  by destruct (dir_exists d (DATA_DIR e)), (refuses d (DATA_DIR e)).
Qed.

Lemma ensureDataDir_oplog e d :
  oplog (ensureDataDir e d) = oplog d ++ [OpMkdir (DATA_DIR e)].
Proof.
  unfold ensureDataDir, fs_mkdir.
  by destruct (dir_exists d (DATA_DIR e)), (refuses d (DATA_DIR e)).
Qed.

Lemma ensureDataDir_refuses e d : refuses (ensureDataDir e d) = refuses d.
Proof.
  unfold ensureDataDir, fs_mkdir.
  by destruct (dir_exists d (DATA_DIR e)), (refuses d (DATA_DIR e)).
Qed.

Lemma ensureDataDir_exists e d :
  dir_exists (ensureDataDir e d) (DATA_DIR e) =
    dir_exists d (DATA_DIR e) || negb (refuses d (DATA_DIR e)).
Proof.
  unfold ensureDataDir, fs_mkdir.
  destruct (dir_exists d (DATA_DIR e)) eqn:Hex; [exact Hex|].
  destruct (refuses d (DATA_DIR e)); [exact Hex|].
  unfold dir_exists, add_dir, log_op. cbn [snd dirs files].
  rewrite existsb_app. cbn [existsb]. rewrite is_prefix_refl.
  by rewrite !orb_true_r.
Qed.

Lemma is_prefix_app p q : is_prefix p (p ++ q) = true.
Proof. induction p as [|x p IH]; simpl; [done|]. by rewrite String.eqb_refl. Qed.

(** A directory that holds a file exists. *)
Lemma dir_exists_of_file d dir n c :
  files d !! (dir ++ [n]) = Some c → dir_exists d dir = true.
Proof.
  intros Hf. unfold dir_exists. apply orb_true_iff. right.
  apply existsb_exists. exists (dir ++ [n], c). split.
  - by apply list_elem_of_In, elem_of_map_to_list.
  - cbn [fst]. rewrite is_prefix_app. apply negb_true_iff, bool_decide_eq_false.
    intros Heq%(f_equal length). rewrite length_app in Heq. simpl in Heq. lia.
Qed.

Lemma disk_wf_ensureDataDir e d : disk_wf (ensureDataDir e d) = disk_wf d.
Proof. unfold disk_wf. by rewrite ensureDataDir_files. Qed.

Lemma name_too_long_json e id :
  name_too_long (getPasteFilePath e id) =
    negb (String.length (sanitize id +:+ ".json") <=? NAME_MAX)%nat.
Proof.
  unfold name_too_long. rewrite getPasteFilePath_eq, last_last.
  apply Nat.ltb_antisym.
Qed.

Lemma ensureDataDir_tears e d : tears (ensureDataDir e d) = tears d.
Proof.
  unfold ensureDataDir, fs_mkdir.
  by destruct (dir_exists d (DATA_DIR e)), (refuses d (DATA_DIR e)).
Qed.

Lemma write_leaves_accepted e p d :
  write_accepted e (id p) d = true → write_leaves e p d = Some (Json p).
Proof.
  unfold write_accepted, write_leaves. intros [-> Ht]%andb_true_iff.
  by destruct (tears d (getPasteFilePath e (id p))).
Qed.

Lemma write_leaves_rejected e p d :
  write_accepted e (id p) d = false →
  write_leaves e p d = None ∨ ∃ raw, write_leaves e p d = Some (Corrupt raw).
Proof.
  unfold write_accepted, write_leaves.
  destruct (write_opens e (id p) d); [|by left].
  destruct (tears d (getPasteFilePath e (id p))) as [raw|]; [|done].
  intros _. right. by exists raw.
Qed.

Lemma fileSet_accepted e p d :
  fs_writeFile (getPasteFilePath e (id p)) (JSON_stringify p) (ensureDataDir e d) =
    (write_accepted e (id p) d,
     match write_leaves e p d with
     | Some c =>
         set_files (<[getPasteFilePath e (id p) := c]> (files d))
           (log_op (OpWriteFile (getPasteFilePath e (id p))) (ensureDataDir e d))
     | None => log_op (OpWriteFile (getPasteFilePath e (id p))) (ensureDataDir e d)
     end).
Proof.
  unfold fs_writeFile, write_accepted, write_leaves, write_opens.
  rewrite name_too_long_json, ensureDataDir_refuses, ensureDataDir_files,
    ensureDataDir_tears.
  replace (removelast (getPasteFilePath e (id p))) with (DATA_DIR e)
    by (by rewrite getPasteFilePath_eq, removelast_last).
  rewrite ensureDataDir_exists.
  destruct (String.length (sanitize (id p) +:+ ".json") <=? NAME_MAX)%nat,
    (refuses d (getPasteFilePath e (id p))),
    (dir_exists d (DATA_DIR e) || negb (refuses d (DATA_DIR e))); try done.
  by destruct (tears d (getPasteFilePath e (id p))).
Qed.

Lemma fileSet_outcome e p d :
  (fileSet e p d).1 = if write_accepted e (id p) d then Resolved else Rejected.
Proof. unfold fileSet. by rewrite fileSet_accepted. Qed.

Lemma fileSet_files e p d :
  files (fileSet e p d).2 =
    match write_leaves e p d with
    | Some c => <[getPasteFilePath e (id p) := c]> (files d)
    | None => files d
    end.
Proof.
  unfold fileSet. rewrite fileSet_accepted. cbn [snd].
  destruct (write_leaves e p d); [done|].
  apply ensureDataDir_files.
Qed.

Lemma fileSet_oplog e p d :
  oplog (fileSet e p d).2 =
    oplog d ++ [OpMkdir (DATA_DIR e); OpWriteFile (getPasteFilePath e (id p))].
Proof.
  unfold fileSet. rewrite fileSet_accepted. cbn [snd].
  destruct (write_leaves e p d); unfold set_files, log_op;
    cbn [oplog]; rewrite ensureDataDir_oplog; by rewrite <- app_assoc.
Qed.

Lemma savePaste_outcome e p now w :
  (savePaste e p now w).1 = if save_accepted e p w then Resolved else Rejected.
Proof.
  unfold savePaste, save_accepted. destruct (getStorageMode e); [done| |done].
  pose proof (fileSet_outcome e p (disk w)) as H.
  by destruct (fileSet e p (disk w)).
Qed.

Lemma savePaste_file_world e p now w :
  getStorageMode e = file_mode →
  (savePaste e p now w).2 =
    mkWorld (memStore w) (fileSet e p (disk w)).2 (redis w).
Proof.
  intros He. unfold savePaste. rewrite He.
  by destruct (fileSet e p (disk w)).
Qed.

Lemma savePaste_memory_world e p now w :
  getStorageMode e = memory_mode →
  (savePaste e p now w).2 =
    mkWorld (memSet p (memStore w)) (disk w) (redis w).
Proof. intros He. unfold savePaste. by rewrite He. Qed.

Lemma savePaste_redis_world e p now w :
  getStorageMode e = redis_mode →
  (savePaste e p now w).2 =
    mkWorld (memStore w) (disk w) (redisSet p now (redis w)).
Proof. intros He. unfold savePaste. by rewrite He. Qed.

(** A save that resolved stored the record. *)
Lemma savePaste_stored e p now w :
  (savePaste e p now w).1 = Resolved → stored e (id p) p (savePaste e p now w).2.
Proof.
  rewrite savePaste_outcome. unfold save_accepted, stored.
  destruct (getStorageMode e) eqn:He.
  - intros _. rewrite savePaste_redis_world by done. cbn [redis].
    unfold redisSet.
    destruct (truthy (expiresAt p));
      [destruct (0 <? ceil_div_1000 _)|]; eexists; apply lookup_insert_eq.
  - rewrite savePaste_file_world by done. cbn [disk].
    rewrite fileSet_files.
    destruct (write_accepted e (id p) (disk w)) eqn:Hacc; [|done].
    intros _. rewrite (write_leaves_accepted _ _ _ Hacc). apply lookup_insert_eq.
  - intros _. rewrite savePaste_memory_world by done. apply Map_get_set_eq.
Qed.

(** Only the file backend rejects a save; the files are then as they
    were, or the file of the record holds torn text. *)
Lemma savePaste_rejected e p now w :
  (savePaste e p now w).1 = Rejected →
  getStorageMode e = file_mode ∧
  (files (disk (savePaste e p now w).2) = files (disk w) ∨
   ∃ raw, files (disk (savePaste e p now w).2) =
            <[getPasteFilePath e (id p) := Corrupt raw]> (files (disk w))).
Proof.
  rewrite savePaste_outcome. unfold save_accepted.
  destruct (getStorageMode e) eqn:He; [done| |done].
  rewrite savePaste_file_world by done. cbn [disk]. rewrite fileSet_files.
  destruct (write_accepted e (id p) (disk w)) eqn:Hacc; [done|].
  intros _. split; [done|].
  destruct (write_leaves_rejected _ _ _ Hacc) as [->|[raw ->]];
    [by left|right; by exists raw].
Qed.

(** ** Round trip *)

Lemma getPaste_file_result e k now w :
  getStorageMode e = file_mode →
  (getPaste e k now w).1 = (fileGet e k now (disk w)).1.
Proof.
  intros He. unfold getPaste. rewrite He.
  by destruct (fileGet e k now (disk w)).
Qed.

Lemma savePaste_getPaste e p now0 now w :
  (savePaste e p now0 w).1 = Resolved →
  not_passed now p →
  (getPaste e (id p) now (savePaste e p now0 w).2).1 = Some p.
Proof.
  intros Hok Hnp. pose proof (savePaste_stored e p now0 w Hok) as Hst.
  pose proof (not_passed_live now p Hnp) as Hlive.
  unfold stored in Hst. destruct (getStorageMode e) eqn:He.
  - rewrite savePaste_redis_world by done.
    unfold getPaste. rewrite He. unfold redisGet, redis_get. cbn [fst redis].
    by apply redisSet_live.
  - rewrite getPaste_file_result by done.
    by rewrite (fileGet_live _ _ _ _ p).
  - unfold getPaste. rewrite He.
    by rewrite (memGet_live _ _ _ p).
Qed.

(** C3 (amended).  [savePaste p] resolves exactly when the selected
    backend takes the save: always on the memory and the remote backend;
    on the file backend when the file name (the sanitized id followed by
    [.json]) has at most 255 characters, the disk does not refuse the
    file, the managed directory exists or can be made, and the disk does
    not run out of space during the write.  After a save
    that resolved, a paste whose expiry has not passed at read time is
    returned by [getPaste (id p)], equal to [p] in its six fields.  After
    a save that was rejected no read returns anything new: [getPaste]
    returns for every id what it returned before the save, or null for an
    id of the record when the write ran out of space and left torn text.
    The file holds the text [JSON.stringify] writes; that [JSON.parse]
    reads this text back as the record is a property of the runtime,
    built into [FileData]. *)
Theorem save_then_get_roundtrip (e : Env) (p : Paste) (now0 now : Z) (w : World) :
  ((savePaste e p now0 w).1 = Resolved ↔ save_accepted e p w = true) ∧
  (getStorageMode e ≠ file_mode → (savePaste e p now0 w).1 = Resolved) ∧
  ((savePaste e p now0 w).1 = Resolved → not_passed now p →
   ∃ q, (getPaste e (id p) now (savePaste e p now0 w).2).1 = Some q ∧
        id q = id p ∧ title q = title p ∧ content q = content p ∧
        language q = language p ∧ createdAt q = createdAt p ∧
        expiresAt q = expiresAt p) ∧
  ((savePaste e p now0 w).1 = Rejected →
   ∀ k, (getPaste e k now (savePaste e p now0 w).2).1 = (getPaste e k now w).1 ∨
        (aliases e (id p) k ∧
         (getPaste e k now (savePaste e p now0 w).2).1 = None)).
Proof.
  split; [|split; [|split]].
  - rewrite savePaste_outcome. by destruct (save_accepted e p w).
  - intros He. rewrite savePaste_outcome. unfold save_accepted.
    by destruct (getStorageMode e).
  - intros Hok Hnp. exists p. split; [|done]. by apply savePaste_getPaste.
  - intros Hrej k.
    destruct (savePaste_rejected e p now0 w Hrej) as (He & [Hf|[raw Hf]]);
      rewrite !getPaste_file_result by done; rewrite !fileGet_result, Hf;
      [by left|].
    destruct (decide (getPasteFilePath e (id p) = getPasteFilePath e k)) as [Heq|Hne].
    + right. unfold aliases. rewrite He, <- Heq, lookup_insert_eq.
      split; [by apply (getPasteFilePath_inj e)|done].
    + left. by rewrite lookup_insert_ne.
Qed.

Lemma save_then_get_roundtrip_witness :
  (savePaste env_file paste_a 1000 empty_world).1 = Resolved ∧
  ∃ q, (getPaste env_file "V1StGXR8_Z" 4999
          (savePaste env_file paste_a 1000 empty_world).2).1 = Some q ∧
       id q = "V1StGXR8_Z" ∧ title q = "Untitled" ∧ content q = "hello" ∧
       language q = "plaintext" ∧ createdAt q = 1000 ∧ expiresAt q = Some 5000.
Proof.
  assert (Hok : (savePaste env_file paste_a 1000 empty_world).1 = Resolved)
    by (vm_compute; reflexivity).
  split; [exact Hok|].
  apply (proj1 (proj2 (proj2
           (save_then_get_roundtrip env_file paste_a 1000 4999 empty_world)))).
  - exact Hok.
  - unfold not_passed. simpl. lia.
Defined.

(** The claim as stated fails on the file backend: the save of a record
    whose id has 251 characters is rejected (the file name has 256), and
    the read that follows finds nothing, although the record never
    expires. *)
Lemma save_then_get_roundtrip_counterexample :
  String.length (id paste_long) = 251%nat ∧
  not_passed 1000 paste_long ∧
  (savePaste env_file paste_long 1000 empty_world).1 = Rejected ∧
  (getPaste env_file (id paste_long) 1000
     (savePaste env_file paste_long 1000 empty_world).2).1 = None.
Proof.
  split; [reflexivity|]. split; [exact I|].
  split; vm_compute; reflexivity.
Qed.

(** ** Sorting *)

Section ArraySort.
Context {A : Type} (cmp : A → A → Z).

Lemma sort_insert_perm x l : sort_insert cmp x l ≡ₚ x :: l.
Proof.
  induction l as [|y l IH]; simpl; [done|].
  destruct (cmp x y <=? 0); [done|].
  rewrite IH. apply perm_swap.
Qed.

Lemma Array_sort_perm l : Array_sort cmp l ≡ₚ l.
Proof.
  induction l as [|x l IH]; simpl; [done|].
  unfold Array_sort in *. simpl. by rewrite sort_insert_perm, IH.
Qed.

Hypothesis cmp_total : ∀ a b, cmp a b ≤ 0 ∨ cmp b a ≤ 0.

Lemma sort_insert_HdRel x y l :
  cmp_le cmp y x → HdRel (cmp_le cmp) y l → HdRel (cmp_le cmp) y (sort_insert cmp x l).
Proof.
  intros Hyx Hhd. destruct l as [|z l]; simpl.
  - by constructor.
  - destruct (cmp x z <=? 0); constructor; [done|].
    by inversion Hhd.
Qed.

Lemma sort_insert_Sorted x l :
  Sorted (cmp_le cmp) l → Sorted (cmp_le cmp) (sort_insert cmp x l).
Proof.
  induction 1 as [|y l Hs IH Hhd]; simpl.
  - by repeat constructor.
  - destruct (Z.leb_spec (cmp x y) 0) as [Hle|Hgt].
    + constructor; [by constructor|]. by constructor.
    + constructor; [done|]. apply sort_insert_HdRel; [|done].
      unfold cmp_le. destruct (cmp_total x y); lia.
Qed.

Lemma Array_sort_Sorted l : Sorted (cmp_le cmp) (Array_sort cmp l).
Proof.
  induction l as [|x l IH]; [constructor|].
  unfold Array_sort in *. simpl. by apply sort_insert_Sorted.
Qed.
End ArraySort.

Lemma newest_first_sorted (l : list Paste) :
  StronglySorted newer_or_same (Array_sort (λ a b, createdAt b - createdAt a) l).
Proof.
  apply Sorted_StronglySorted.
  - intros a b c. unfold newer_or_same. lia.
  - eapply Sorted_ind with (P := Sorted newer_or_same);
      [constructor| |apply (Array_sort_Sorted (λ a b : Paste, createdAt b - createdAt a))].
    + intros a l' _ IH Hhd. constructor; [done|].
      destruct Hhd as [|b l'' Hab]; constructor.
      unfold cmp_le in Hab. unfold newer_or_same. lia.
    + intros a b. lia.
Qed.

Lemma listed_iff now p :
  listed now p = true ↔
  expiresAt p = None ∨ expiresAt p = Some 0 ∨ ∃ t, expiresAt p = Some t ∧ now < t.
Proof.
  unfold listed. destruct (expiresAt p) as [t|]; simpl.
  - destruct (Z.eqb_spec t 0) as [->|Hne]; simpl.
    + split; [|done]. intros _. right. by left.
    + rewrite Z.ltb_lt. split.
      * intros Hlt. right. right. by exists t.
      * intros [H|[H|(t' & [= <-] & Hlt)]]; [done|congruence|done].
  - split; [|done]. intros _. by left.
Qed.

(** ** Scanning the managed directory *)

Lemma child_name_app dir n : child_name dir (dir ++ [n]) = Some n.
Proof. induction dir as [|a dir IH]; simpl; [done|]. by rewrite String.eqb_refl. Qed.

Lemma child_name_Some dir q n : child_name dir q = Some n → q = dir ++ [n].
Proof.
  revert q. induction dir as [|a dir IH]; intros q; simpl.
  - destruct q as [|b [|c q]]; [done| |done]. by intros [= ->].
  - destruct q as [|b q]; [done|].
    destruct (String.eqb_spec a b) as [->|_]; [|done].
    intros Hq. by rewrite (IH _ Hq).
Qed.

Lemma scan_file_pastes e now acc d n :
  plain_segment n = true →
  (scan_file e now (acc, d) n).1 = acc ++ option_list (listed_record e now (files d) n).
Proof.
  intros Hn. unfold scan_file, listed_record, fs_readFile.
  rewrite (path_join_plain _ _ Hn).
  destruct (endsWith n ".json"); simpl; [|by rewrite app_nil_r].
  destruct (files d !! (DATA_DIR e ++ [n])) as [[p|raw]|]; simpl;
    [|by rewrite app_nil_r..].
  destruct (listed now p); simpl; [done|by rewrite app_nil_r].
Qed.

Lemma scan_file_files e now acc d n :
  plain_segment n = true →
  files (scan_file e now (acc, d) n).2 =
    if swept e now (files d) (DATA_DIR e ++ [n])
    then delete (DATA_DIR e ++ [n]) (files d) else files d.
Proof.
  intros Hn. unfold scan_file, swept, fs_readFile.
  rewrite (path_join_plain _ _ Hn), child_name_app.
  destruct (endsWith n ".json"); simpl; [|done].
  destruct (files d !! (DATA_DIR e ++ [n])) as [[p|raw]|]; simpl; [|done..].
  by destruct (listed now p).
Qed.

(** Sweeping one file leaves the scan of every entry as it was. *)
Lemma listed_record_after_sweep e now F n n' :
  swept e now F (DATA_DIR e ++ [n]) = true →
  listed_record e now (delete (DATA_DIR e ++ [n]) F) n' = listed_record e now F n'.
Proof.
  intros Hsw. unfold listed_record. destruct (endsWith n' ".json"); [|done].
  destruct (decide (DATA_DIR e ++ [n] = DATA_DIR e ++ [n'])) as [Heq|Hne].
  - rewrite <- Heq, lookup_delete_eq. unfold swept in Hsw.
    rewrite child_name_app in Hsw. apply andb_true_iff in Hsw as [_ Hsw].
    destruct (F !! (DATA_DIR e ++ [n])) as [[p|raw]|]; [|done..].
    apply negb_true_iff in Hsw. by rewrite Hsw.
  - by rewrite lookup_delete_ne.
Qed.

Lemma swept_after_sweep e now F n q :
  swept e now (delete (DATA_DIR e ++ [n]) F) q = true → swept e now F q = true.
Proof.
  unfold swept. destruct (child_name (DATA_DIR e) q) as [m|]; [|done].
  destruct (endsWith m ".json"); simpl; [|done].
  destruct (decide (DATA_DIR e ++ [n] = q)) as [<-|Hne].
  - by rewrite lookup_delete_eq.
  - by rewrite lookup_delete_ne.
Qed.

Lemma scan_files_pastes e now names :
  Forall (λ n, plain_segment n = true) names →
  ∀ acc d,
    (foldl (scan_file e now) (acc, d) names).1 =
      acc ++ omap (listed_record e now (files d)) names.
Proof.
  induction 1 as [|n names Hn _ IH]; intros acc d; [simpl; by rewrite app_nil_r|].
  cbn [foldl omap list_omap].
  destruct (scan_file e now (acc, d) n) as [acc1 d1] eqn:Hstep.
  rewrite IH.
  pose proof (scan_file_pastes e now acc d n Hn) as Hp.
  pose proof (scan_file_files e now acc d n Hn) as Hf.
  rewrite Hstep in Hp, Hf. simpl in Hp, Hf. rewrite Hp, Hf.
  assert (Hsame : omap (listed_record e now
            (if swept e now (files d) (DATA_DIR e ++ [n])
             then delete (DATA_DIR e ++ [n]) (files d) else files d)) names
          = omap (listed_record e now (files d)) names).
  { destruct (swept e now (files d) (DATA_DIR e ++ [n])) eqn:Hsw; [|done].
    apply list_omap_ext, Forall2_same_length_lookup_2; [done|].
    intros i x y Hx Hy. rewrite Hx in Hy. injection Hy as <-.
    by apply listed_record_after_sweep. }
  rewrite Hsame, <- app_assoc. f_equal.
  by destruct (listed_record e now (files d) n).
Qed.

Lemma scan_files_kept e now names :
  Forall (λ n, plain_segment n = true) names →
  ∀ acc d q,
    swept e now (files d) q = false →
    files (foldl (scan_file e now) (acc, d) names).2 !! q = files d !! q.
Proof.
  induction 1 as [|n names Hn _ IH]; intros acc d q Hq; [done|].
  cbn [foldl].
  destruct (scan_file e now (acc, d) n) as [acc1 d1] eqn:Hstep.
  pose proof (scan_file_files e now acc d n Hn) as Hf.
  rewrite Hstep in Hf. simpl in Hf.
  destruct (swept e now (files d) (DATA_DIR e ++ [n])) eqn:Hsw.
  - rewrite IH.
    + rewrite Hf. apply lookup_delete_ne. intros <-. congruence.
    + rewrite Hf. destruct (swept e now (delete _ _) q) eqn:Hq'; [|done].
      apply swept_after_sweep in Hq'. congruence.
  - rewrite IH; by rewrite Hf.
Qed.

Lemma scan_files_swept e now names :
  Forall (λ n, plain_segment n = true) names →
  ∀ acc d n,
    n ∈ names →
    swept e now (files d) (DATA_DIR e ++ [n]) = true →
    files (foldl (scan_file e now) (acc, d) names).2 !! (DATA_DIR e ++ [n]) = None.
Proof.
  induction 1 as [|m names Hm Hall IH]; intros acc d n Hin Hsw.
  - by apply elem_of_nil in Hin.
  - cbn [foldl]. destruct (scan_file e now (acc, d) m) as [acc1 d1] eqn:Hstep.
    pose proof (scan_file_files e now acc d m Hm) as Hf.
    rewrite Hstep in Hf. simpl in Hf.
    destruct (swept e now (files d1) (DATA_DIR e ++ [n])) eqn:Hsw1.
    + destruct (decide (n ∈ names)) as [Hin'|Hnot]; [by apply IH|].
      apply elem_of_cons in Hin as [->|Hin]; [|done].
      rewrite Hsw in Hf. rewrite Hf in Hsw1.
      unfold swept in Hsw1. rewrite lookup_delete_eq in Hsw1.
      rewrite child_name_app in Hsw1. by rewrite andb_false_r in Hsw1.
    + rewrite (scan_files_kept e now names Hall acc1 d1 _ Hsw1).
      destruct (decide (n = m)) as [->|Hne].
      * rewrite Hf, Hsw. apply lookup_delete_eq.
      * rewrite Hf in Hsw1 |- *.
        destruct (swept e now (files d) (DATA_DIR e ++ [m])) eqn:Hswm;
          [|congruence].
        unfold swept in Hsw, Hsw1. rewrite child_name_app in Hsw, Hsw1.
        rewrite lookup_delete_ne in Hsw1 by (intros [= ->]%(inj (app _)); done).
        congruence.
Qed.

Lemma plain_segment_last dir n :
  forallb plain_segment (dir ++ [n]) = true → plain_segment n = true.
Proof.
  rewrite forallb_app. intros [_ Hn]%andb_true_iff.
  simpl in Hn. by rewrite andb_true_r in Hn.
Qed.

Lemma readdir_valid dir d :
  disk_wf d = true →
  Forall (λ n, plain_segment n = true) (fs_readdir dir d).1.
Proof.
  unfold disk_wf. rewrite forallb_forall. intros Hwf.
  apply Forall_forall. intros n Hn. simpl in Hn.
  apply list_elem_of_omap in Hn as (kv & Hkv & Hchild).
  apply child_name_Some in Hchild.
  apply (plain_segment_last dir). rewrite <- Hchild.
  apply Hwf. by apply list_elem_of_In.
Qed.

Lemma readdir_complete dir d n :
  is_Some (files d !! (dir ++ [n])) → n ∈ (fs_readdir dir d).1.
Proof.
  intros [c Hc]. simpl. apply list_elem_of_omap.
  exists (dir ++ [n], c). split; [by apply elem_of_map_to_list|].
  apply child_name_app.
Qed.

Lemma scan_of_entries (e : Env) (now : Z) (F : gmap (list string) FileData)
    (l : list (list string * FileData)) :
  (∀ kv, kv ∈ l → F !! kv.1 = Some kv.2) →
  omap (listed_record e now F) (omap (λ kv, child_name (DATA_DIR e) kv.1) l) =
  List.filter (listed now)
    (omap (λ kv, match child_name (DATA_DIR e) kv.1 with
                 | Some n => if endsWith n ".json" then JSON_parse kv.2 else None
                 | None => None
                 end) l).
Proof.
  induction l as [|[q c] l IH]; intros Hl; [done|].
  cbn [omap list_omap]. simpl fst. simpl snd.
  assert (Hq : F !! q = Some c) by (apply (Hl (q, c)); by left).
  assert (IH' := IH (λ kv Hin, Hl kv (list_elem_of_further _ _ _ Hin))).
  clear IH Hl.
  destruct (child_name (DATA_DIR e) q) as [n|] eqn:Hchild; [|done].
  apply child_name_Some in Hchild. subst q.
  cbn [omap list_omap]. unfold listed_record at 1. rewrite Hq.
  destruct (endsWith n ".json"); [|done].
  destruct c as [p|raw]; simpl; [|done].
  destruct (listed now p); by rewrite IH'.
Qed.

Lemma getAllPastes_file_pastes e now w :
  getStorageMode e = file_mode → disk_wf (disk w) = true →
  (getAllPastes e now w).1 =
    Array_sort (λ a b, createdAt b - createdAt a)
               (List.filter (listed now) (dir_records e (disk w))).
Proof.
  intros Hmode Hwf. unfold getAllPastes. rewrite Hmode.
  pose proof (readdir_valid (DATA_DIR e) (ensureDataDir e (disk w))
                (eq_trans (disk_wf_ensureDataDir e (disk w)) Hwf)) as Hnames.
  destruct (fs_readdir (DATA_DIR e) (ensureDataDir e (disk w))) as [names d2] eqn:Hrd.
  pose proof (scan_files_pastes e now names Hnames [] d2) as Hp.
  destruct (foldl (scan_file e now) ([], d2) names) as [pastes d3].
  simpl in Hp |- *. subst pastes. f_equal.
  injection Hrd as <- <-. unfold log_op. cbn [files].
  rewrite ensureDataDir_files. unfold dir_records.
  apply scan_of_entries. intros [q c] Hin. by apply elem_of_map_to_list.
Qed.

Lemma getAllPastes_file_files e now w q :
  getStorageMode e = file_mode → disk_wf (disk w) = true →
  files (disk (getAllPastes e now w).2) !! q =
    if swept e now (files (disk w)) q then None else files (disk w) !! q.
Proof.
  intros Hmode Hwf. unfold getAllPastes. rewrite Hmode.
  pose proof (readdir_valid (DATA_DIR e) (ensureDataDir e (disk w))
                (eq_trans (disk_wf_ensureDataDir e (disk w)) Hwf)) as Hnames.
  pose proof (readdir_complete (DATA_DIR e) (ensureDataDir e (disk w))) as Hcompl.
  destruct (fs_readdir (DATA_DIR e) (ensureDataDir e (disk w))) as [names d2] eqn:Hrd.
  pose proof (scan_files_kept e now names Hnames [] d2 q) as Hkept.
  pose proof (scan_files_swept e now names Hnames [] d2) as Hswept.
  destruct (foldl (scan_file e now) ([], d2) names) as [pastes d3].
  injection Hrd as Hn <-. simpl in *.
  rewrite (ensureDataDir_files e (disk w)) in Hcompl, Hswept, Hkept.
  destruct (swept e now (files (disk w)) q) eqn:Hsw; [|by apply Hkept].
  pose proof Hsw as Hsw'. unfold swept in Hsw'.
  destruct (child_name (DATA_DIR e) q) as [n|] eqn:Hchild; [|done].
  apply child_name_Some in Hchild. subst q.
  apply Hswept; [|done]. apply Hcompl.
  apply andb_true_iff in Hsw' as [_ Hsw'].
  by destruct (files (disk w) !! (DATA_DIR e ++ [n])).
Qed.

Lemma getAllPastes_memory_pastes e now w :
  getStorageMode e = memory_mode →
  (getAllPastes e now w).1 =
    Array_sort (λ a b, createdAt b - createdAt a)
               (List.filter (listed now) (Map_values (memStore w))).
Proof. intros Hmode. unfold getAllPastes. by rewrite Hmode. Qed.

(** ** Listing *)

(** C7, as the code has it.  For the ephemeral and file backends the
    listing returns exactly the stored records that pass the listing test
    ([expiresAt] absent, [0], or later than the time of the call), ordered
    by [createdAt] descending with ties allowed: every element's
    [createdAt] is at least that of every later element.  The scan of the
    file backend deletes the [.json] files whose record fails the test and
    leaves every other file, the unparseable ones included, as it was. *)
Theorem getAllPastes_listing (e : Env) (now : Z) (w : World) :
  (getStorageMode e = memory_mode →
     (getAllPastes e now w).1 ≡ₚ List.filter (listed now) (Map_values (memStore w)) ∧
     (getAllPastes e now w).2 = w) ∧
  (getStorageMode e = file_mode → disk_wf (disk w) = true →
     (getAllPastes e now w).1 ≡ₚ List.filter (listed now) (dir_records e (disk w)) ∧
     (∀ q, files (disk (getAllPastes e now w).2) !! q =
             if swept e now (files (disk w)) q then None else files (disk w) !! q) ∧
     (∀ q raw, files (disk w) !! q = Some (Corrupt raw) →
               files (disk (getAllPastes e now w).2) !! q = Some (Corrupt raw))) ∧
  StronglySorted newer_or_same (getAllPastes e now w).1 ∧
  (∀ p, listed now p = true ↔
        expiresAt p = None ∨ expiresAt p = Some 0 ∨
        ∃ t, expiresAt p = Some t ∧ now < t).
Proof.
  split; [|split; [|split]].
  - intros Hmode. unfold getAllPastes. rewrite Hmode. simpl.
    split; [apply Array_sort_perm|done].
  - intros Hmode Hwf. split; [|split].
    + rewrite getAllPastes_file_pastes by done. apply Array_sort_perm.
    + intros q. by apply getAllPastes_file_files.
    + intros q raw Hq. rewrite getAllPastes_file_files by done.
      unfold swept. rewrite Hq.
      destruct (child_name (DATA_DIR e) q); [|done]. by rewrite andb_false_r.
  - unfold getAllPastes. destruct (getStorageMode e).
    + simpl. constructor.
    + destruct (fs_readdir _ _) as [names d2].
      destruct (foldl _ _ _) as [pastes d3]. simpl. apply newest_first_sorted.
    + simpl. apply newest_first_sorted.
  - intros p. apply listed_iff.
Qed.

Lemma getAllPastes_listing_witness :
  (getAllPastes env_file 6000 world_dir).1
    ≡ₚ List.filter (listed 6000) (dir_records env_file (disk world_dir)) ∧
  files (disk (getAllPastes env_file 6000 world_dir).2)
    !! ["srv"; "app"; "data"; "pastes"; "broken.json"] = Some (Corrupt "{") ∧
  (getAllPastes env_memory 2000 world_ties).1
    ≡ₚ List.filter (listed 2000) (Map_values (memStore world_ties)).
Proof.
  split; [|split].
  - apply (proj1 (proj2 (getAllPastes_listing env_file 6000 world_dir)));
      vm_compute; reflexivity.
  - apply (proj1 (proj2 (getAllPastes_listing env_file 6000 world_dir)));
      vm_compute; reflexivity.
  - apply (proj1 (getAllPastes_listing env_memory 2000 world_ties)).
    reflexivity.
Defined.

(** C7 as stated fails: two records created in the same millisecond are
    both listed, so the order is not strict. *)
Lemma getAllPastes_strict_counterexample :
  (getAllPastes env_memory 2000 world_ties).1 = [paste_a; paste_b] ∧
  createdAt paste_a = createdAt paste_b ∧
  ¬ StronglySorted strictly_newer (getAllPastes env_memory 2000 world_ties).1.
Proof.
  split; [reflexivity|]. split; [reflexivity|].
  intros Hs. change (StronglySorted strictly_newer [paste_a; paste_b]) in Hs.
  apply StronglySorted_inv in Hs as [_ Hhd].
  apply Forall_cons in Hhd as [Hlt _]. unfold strictly_newer in Hlt.
  simpl in Hlt. lia.
Qed.

(** ** Expiry on read *)

Lemma getPaste_memory e key now w :
  getStorageMode e = memory_mode →
  getPaste e key now w =
    ((memGet key now (memStore w)).1,
     mkWorld (memGet key now (memStore w)).2 (disk w) (redis w)).
Proof.
  intros Hmode. unfold getPaste. rewrite Hmode.
  by destruct (memGet key now (memStore w)).
Qed.

Lemma getPaste_file e key now w :
  getStorageMode e = file_mode →
  getPaste e key now w =
    ((fileGet e key now (disk w)).1,
     mkWorld (memStore w) (fileGet e key now (disk w)).2 (redis w)).
Proof.
  intros Hmode. unfold getPaste. rewrite Hmode.
  by destruct (fileGet e key now (disk w)).
Qed.

Lemma getPaste_redis e key now w :
  getStorageMode e = redis_mode →
  getPaste e key now w =
    (redis_live ("paste:" +:+ key) now (redis w),
     mkWorld (memStore w) (disk w)
             (mkRedis (db (redis w)) (cmds (redis w) ++ [GET ("paste:" +:+ key)]))).
Proof. intros Hmode. unfold getPaste. by rewrite Hmode. Qed.

Lemma getPaste_live e key now w p :
  getStorageMode e ≠ redis_mode → stored e key p w →
  expired_on_read now p = false →
  (getPaste e key now w).1 = Some p ∧ stored e key p (getPaste e key now w).2.
Proof.
  intros Hmode Hst Hlive. unfold stored in *.
  destruct (getStorageMode e) eqn:Hm; [done| |].
  - rewrite getPaste_file by done. by rewrite (fileGet_live _ _ _ _ p).
  - rewrite getPaste_memory by done. by rewrite (memGet_live _ _ _ p).
Qed.

Lemma getPaste_expired e key now w p :
  getStorageMode e ≠ redis_mode → stored e key p w →
  expired_on_read now p = true →
  (getPaste e key now w).1 = None ∧
  ∀ now', holds e key now' (getPaste e key now w).2 = false.
Proof.
  intros Hmode Hst Hexp. unfold stored, holds in *.
  destruct (getStorageMode e) eqn:Hm; [done| |].
  - rewrite getPaste_file by done. rewrite (fileGet_expired _ _ _ _ p) by done.
    simpl. split; [done|]. intros _. rewrite lookup_delete_eq.
    apply bool_decide_eq_false. by intros [? ?].
  - rewrite getPaste_memory by done. rewrite (memGet_expired _ _ _ p) by done.
    split; [done|]. intros _. apply Map_has_delete.
Qed.

(** The remote backend: what a read returns after a save, by the time
    to live the save asked for. *)
Lemma redis_save_then_get e p now0 now w :
  getStorageMode e = redis_mode →
  (getPaste e (id p) now (savePaste e p now0 w).2).1 =
    redis_live ("paste:" +:+ id p) now (redisSet p now0 (redis w)).
Proof.
  intros Hmode. rewrite getPaste_redis by done.
  by rewrite savePaste_redis_world.
Qed.

Lemma redis_window e p t now0 now w :
  getStorageMode e = redis_mode →
  expiresAt p = Some t → t ≠ 0 → now0 < t →
  (getPaste e (id p) now (savePaste e p now0 w).2).1 =
    if now <? now0 + 1000 * ceil_div_1000 (t - now0) then Some p else None.
Proof.
  intros Hmode Ht H0 Hlt. rewrite redis_save_then_get by done.
  pose proof (ceil_div_1000_bounds (t - now0)) as Hb.
  unfold redisSet. rewrite Ht. simpl.
  destruct (Z.eqb_spec t 0) as [|_]; [done|]. simpl.
  destruct (Z.ltb_spec 0 (ceil_div_1000 (t - now0))); [|lia].
  by rewrite redis_live_set.
Qed.

Lemma redis_kept e p now0 now w :
  getStorageMode e = redis_mode →
  (∀ t, expiresAt p = Some t → t ≤ now0 ∨ t = 0) →
  (getPaste e (id p) now (savePaste e p now0 w).2).1 = Some p.
Proof.
  intros Hmode Hexp. rewrite redis_save_then_get by done. unfold redisSet.
  destruct (expiresAt p) as [t|]; simpl; [|by rewrite redis_live_set].
  destruct (Z.eqb_spec t 0) as [|Hne]; simpl; [by rewrite redis_live_set|].
  pose proof (ceil_div_1000_bounds (t - now0)) as Hb.
  destruct (Hexp t eq_refl) as [Hle|?]; [|done].
  destruct (Z.ltb_spec 0 (ceil_div_1000 (t - now0))); [lia|].
  by rewrite redis_live_set.
Qed.

(** C1, as the code has it.  On the memory and file backends, a stored
    paste with [expiresAt = t] is returned by [getPaste], and stays stored,
    at any time before [t]; when [t] is not [0], at any time after [t]
    [getPaste] returns null and the record is gone afterwards.  On the
    remote backend the client makes no check of its own: a paste saved
    with [expiresAt = t] is returned at any time before [t]; when it was
    saved at [now0] before [t] (and [t] is not [0]) the service holds it
    for the remaining time rounded up to whole seconds, so that it is
    returned until the instant [d = now0 + 1000 * ceil ((t - now0) / 1000)],
    which lies in [t, t + 1000), and [getPaste] returns null from [d] on;
    when it was saved at or after [t] it is written without time to live
    and returned at every time.  Nothing is said of the instant [t] itself
    on the memory and file backends. *)
Theorem getPaste_expiry (e : Env) (p : Paste) (t : Z) :
  expiresAt p = Some t →
  (∀ key now w,
     getStorageMode e ≠ redis_mode → stored e key p w →
     (now < t →
        (getPaste e key now w).1 = Some p ∧ stored e key p (getPaste e key now w).2) ∧
     (t ≠ 0 → t < now →
        (getPaste e key now w).1 = None ∧
        ∀ now', holds e key now' (getPaste e key now w).2 = false)) ∧
  (∀ now0 now w,
     getStorageMode e = redis_mode → now < t →
     (getPaste e (id p) now (savePaste e p now0 w).2).1 = Some p) ∧
  (∀ now0 w,
     getStorageMode e = redis_mode → t ≠ 0 → now0 < t →
     let d := now0 + 1000 * ceil_div_1000 (t - now0) in
     t ≤ d < t + 1000 ∧
     ∀ now, (getPaste e (id p) now (savePaste e p now0 w).2).1 =
              if now <? d then Some p else None) ∧
  (∀ now0 now w,
     getStorageMode e = redis_mode → t ≤ now0 →
     (getPaste e (id p) now (savePaste e p now0 w).2).1 = Some p).
Proof.
  intros Ht. split; [|split; [|split]].
  - intros key now w Hmode Hst. split.
    + intros Hlt. apply getPaste_live; [done..|].
      apply (expired_on_read_before _ _ t); [done|lia].
    + intros H0 Hlt. apply (getPaste_expired _ _ _ _ p); [done..|].
      by apply (expired_on_read_after _ _ t).
  - intros now0 now w Hmode Hlt. rewrite redis_save_then_get by done.
    apply redisSet_live. unfold not_passed. by rewrite Ht.
  - intros now0 w Hmode H0 Hlt d.
    pose proof (ceil_div_1000_bounds (t - now0)) as Hb.
    split; [unfold d; lia|]. intros now. by apply (redis_window _ _ t).
  - intros now0 now w Hmode Hle. apply redis_kept; [done|].
    intros t' Ht'. rewrite Ht in Ht'. injection Ht' as <-. by left.
Qed.

Lemma getPaste_expiry_witness :
  (getPaste env_file "V1StGXR8_Z" 4999 world_dir).1 = Some paste_a ∧
  (getPaste env_file "V1StGXR8_Z" 5001 world_dir).1 = None ∧
  holds env_file "V1StGXR8_Z" 5001 (getPaste env_file "V1StGXR8_Z" 5001 world_dir).2 = false ∧
  (getPaste env_redis "V1StGXR8_Z" 4999
     (savePaste env_redis paste_a 1000 empty_world).2).1 = Some paste_a ∧
  (getPaste env_redis "V1StGXR8_Z" 5199
     (savePaste env_redis paste_a 4200 empty_world).2).1 = Some paste_a ∧
  (getPaste env_redis "V1StGXR8_Z" 5200
     (savePaste env_redis paste_a 4200 empty_world).2).1 = None.
Proof.
  pose proof (getPaste_expiry env_file paste_a 5000 eq_refl) as [Hlocal _].
  pose proof (getPaste_expiry env_redis paste_a 5000 eq_refl)
    as (_ & Hremote & Hwindow & _).
  assert (Hmode : getStorageMode env_file ≠ redis_mode) by discriminate.
  assert (Hst : stored env_file "V1StGXR8_Z" paste_a world_dir)
    by (vm_compute; reflexivity).
  pose proof (Hwindow 4200 empty_world eq_refl ltac:(lia) ltac:(lia)) as [_ Hw].
  split; [|split; [|split; [|split; [|split]]]].
  - apply (Hlocal "V1StGXR8_Z" 4999 world_dir Hmode Hst). lia.
  - apply (Hlocal "V1StGXR8_Z" 5001 world_dir Hmode Hst); lia.
  - apply (Hlocal "V1StGXR8_Z" 5001 world_dir Hmode Hst); lia.
  - apply (Hremote 1000 4999 empty_world); [reflexivity|lia].
  - exact (Hw 5199).
  - exact (Hw 5200).
Defined.

(** C1 as stated fails: at the instant [expiresAt] the memory backend
    still returns the record, and on the remote backend, whose time to
    live is rounded up to whole seconds, a record with [expiresAt = 5000]
    saved at 4200 is still returned at 5100. *)
Lemma getPaste_expiry_counterexample :
  expiresAt paste_a = Some 5000 ∧
  stored env_memory "V1StGXR8_Z" paste_a world_ties ∧
  (getPaste env_memory "V1StGXR8_Z" 5000 world_ties).1 = Some paste_a ∧
  (getPaste env_redis "V1StGXR8_Z" 5100
     (savePaste env_redis paste_a 4200 empty_world).2).1 = Some paste_a.
Proof. repeat split; vm_compute; reflexivity. Qed.

(** ** A record whose [expiresAt] is 0 *)

Lemma substring_all s : String.substring 0 (String.length s) s = s.
Proof. induction s as [|c s IH]; simpl; [done|]. by rewrite IH. Qed.

Lemma substring_skip s1 s2 :
  String.substring (String.length s1) (String.length s2) (s1 +:+ s2) = s2.
Proof.
  induction s1 as [|c s1 IH]; [apply substring_all|exact IH].
Qed.

Lemma endsWith_append s suffix : endsWith (s +:+ suffix) suffix = true.
Proof.
  unfold endsWith. cbv zeta. rewrite length_append, Nat.add_sub.
  rewrite substring_skip, String.eqb_refl, andb_true_r.
  apply Nat.leb_le. lia.
Qed.

Lemma dir_records_stored e key p w :
  getStorageMode e = file_mode → stored e key p w → p ∈ dir_records e (disk w).
Proof.
  intros Hmode Hst. unfold stored in Hst. rewrite Hmode in Hst.
  unfold dir_records. apply list_elem_of_omap.
  exists (getPasteFilePath e key, Json p).
  split; [by apply elem_of_map_to_list|]. simpl.
  rewrite getPasteFilePath_eq, child_name_app. by rewrite endsWith_append.
Qed.

Lemma Map_values_stored key p m : Map_get key m = Some p → p ∈ Map_values m.
Proof.
  unfold Map_values. induction m as [|[k v] m IH]; simpl; [done|].
  destruct (String.eqb key k).
  - intros [= ->]. by left.
  - intros Hm. right. by apply IH.
Qed.

Lemma getAllPastes_lists e key p now w :
  getStorageMode e ≠ redis_mode →
  (getStorageMode e = file_mode → disk_wf (disk w) = true) →
  stored e key p w → listed now p = true →
  p ∈ (getAllPastes e now w).1.
Proof.
  intros Hmode Hwf Hst Hlisted.
  destruct (getStorageMode e) eqn:Hm; [done| |].
  - rewrite getAllPastes_file_pastes, Array_sort_perm by auto.
    apply list_elem_of_In, filter_In. split; [|done].
    apply list_elem_of_In. by apply (dir_records_stored e key).
  - rewrite getAllPastes_memory_pastes, Array_sort_perm by done.
    apply list_elem_of_In, filter_In. split; [|done].
    apply list_elem_of_In. unfold stored in Hst. rewrite Hm in Hst.
    by apply (Map_values_stored key).
Qed.

(** C9.  A stored paste whose [expiresAt] is [0] never expires: on the
    memory and file backends [getPaste] returns it at every time and the
    listing includes it, and the remote [set] writes it with no time to
    live. *)
Theorem zero_expiresAt_never_expires (e : Env) (p : Paste) :
  expiresAt p = Some 0 →
  (∀ key now w,
     getStorageMode e ≠ redis_mode → stored e key p w →
     (getPaste e key now w).1 = Some p ∧ stored e key p (getPaste e key now w).2) ∧
  (∀ key now w,
     getStorageMode e ≠ redis_mode →
     (getStorageMode e = file_mode → disk_wf (disk w) = true) →
     stored e key p w →
     p ∈ (getAllPastes e now w).1) ∧
  (∀ now r, redisSet p now r = redis_set ("paste:" +:+ id p) p None now r).
Proof.
  intros H0. split; [|split].
  - intros key now w Hmode Hst. apply getPaste_live; [done..|].
    apply expired_on_read_never. by rewrite H0.
  - intros key now w Hmode Hwf Hst. apply (getAllPastes_lists e key); [done..|].
    apply listed_iff. right. by left.
  - intros now r. unfold redisSet. by rewrite H0.
Qed.

Lemma zero_expiresAt_never_expires_witness :
  (getPaste env_memory "Zero000000" 1700000000000 (world_zero env_memory)).1
    = Some paste_zero ∧
  (getPaste env_file "Zero000000" 1700000000000 (world_zero env_file)).1
    = Some paste_zero ∧
  paste_zero ∈ (getAllPastes env_memory 1700000000000 (world_zero env_memory)).1 ∧
  paste_zero ∈ (getAllPastes env_file 1700000000000 (world_zero env_file)).1 ∧
  redisSet paste_zero 1700000000000 (redis empty_world)
    = redis_set "paste:Zero000000" paste_zero None 1700000000000 (redis empty_world).
Proof.
  pose proof (zero_expiresAt_never_expires env_memory paste_zero eq_refl)
    as (Hget_m & Hlist_m & _).
  pose proof (zero_expiresAt_never_expires env_file paste_zero eq_refl)
    as (Hget_f & Hlist_f & Hset).
  split; [|split; [|split; [|split]]].
  - apply (Hget_m "Zero000000"); [discriminate|vm_compute; reflexivity].
  - apply (Hget_f "Zero000000"); [discriminate|vm_compute; reflexivity].
  - apply (Hlist_m "Zero000000");
      [discriminate|discriminate|vm_compute; reflexivity].
  - apply (Hlist_f "Zero000000");
      [discriminate|intros _; vm_compute; reflexivity|vm_compute; reflexivity].
  - apply Hset.
Defined.

(** ** Deleting *)

Lemma deletePaste_memory e id now w :
  getStorageMode e = memory_mode →
  deletePaste e id now w =
    (Map_has id (memStore w),
     mkWorld (Map_delete id (memStore w)).2 (disk w) (redis w)).
Proof. intros Hmode. unfold deletePaste. by rewrite Hmode. Qed.

Lemma deletePaste_file e id now w :
  getStorageMode e = file_mode →
  deletePaste e id now w =
    (bool_decide (is_Some (files (disk w) !! getPasteFilePath e id)),
     mkWorld (memStore w)
             (mkDisk (delete (getPasteFilePath e id) (files (disk w)))
                     (oplog (disk w) ++ [OpUnlink (getPasteFilePath e id)])
                     (dirs (disk w)) (refuses (disk w)) (tears (disk w)))
             (redis w)).
Proof. intros Hmode. unfold deletePaste. by rewrite Hmode. Qed.

Lemma deletePaste_redis e id now w :
  getStorageMode e = redis_mode →
  deletePaste e id now w =
    (bool_decide (is_Some (redis_live ("paste:" +:+ id) now (redis w))),
     mkWorld (memStore w) (disk w)
             (mkRedis (delete ("paste:" +:+ id) (db (redis w)))
                      (cmds (redis w) ++ [DEL ("paste:" +:+ id)]))).
Proof.
  intros Hmode. unfold deletePaste. rewrite Hmode. simpl. f_equal.
  by destruct (redis_live _ _ _).
Qed.

Lemma deletePaste_result e id now w :
  (deletePaste e id now w).1 = holds e id now w.
Proof.
  unfold holds. destruct (getStorageMode e) eqn:Hm.
  - by rewrite deletePaste_redis.
  - by rewrite deletePaste_file.
  - by rewrite deletePaste_memory.
Qed.

Lemma deletePaste_gone e id now now' w :
  holds e id now' (deletePaste e id now w).2 = false.
Proof.
  unfold holds. destruct (getStorageMode e) eqn:Hm.
  - rewrite deletePaste_redis by done. unfold redis_live. simpl.
    by rewrite lookup_delete_eq.
  - rewrite deletePaste_file by done. simpl. by rewrite lookup_delete_eq.
  - rewrite deletePaste_memory by done. simpl. apply Map_has_delete.
Qed.

(** C8.  On every backend that holds a record for [id], two calls of
    [deletePaste id] in a row return [true], then [false], and after
    either call no record is held for [id]. *)
Theorem deletePaste_twice (e : Env) (id : string) (now1 now2 : Z) (w : World) :
  holds e id now1 w = true →
  let first := deletePaste e id now1 w in
  let second := deletePaste e id now2 first.2 in
  first.1 = true ∧ second.1 = false ∧
  (∀ now', holds e id now' first.2 = false) ∧
  (∀ now', holds e id now' second.2 = false).
Proof.
  intros Hholds first second. subst first second.
  rewrite !deletePaste_result, Hholds.
  split; [done|]. split; [apply deletePaste_gone|].
  split; intros now'; apply deletePaste_gone.
Qed.

Lemma deletePaste_twice_witness :
  (deletePaste env_file "V1StGXR8_Z" 2000 world_dir).1 = true ∧
  (deletePaste env_file "V1StGXR8_Z" 2001
     (deletePaste env_file "V1StGXR8_Z" 2000 world_dir).2).1 = false ∧
  (∀ now', holds env_file "V1StGXR8_Z" now'
             (deletePaste env_file "V1StGXR8_Z" 2000 world_dir).2 = false) ∧
  (∀ now', holds env_file "V1StGXR8_Z" now'
             (deletePaste env_file "V1StGXR8_Z" 2001
                (deletePaste env_file "V1StGXR8_Z" 2000 world_dir).2).2 = false).
Proof.
  apply (deletePaste_twice env_file "V1StGXR8_Z" 2000 2001 world_dir).
  vm_compute. reflexivity.
Defined.

(** ** Identifiers that sanitize alike *)

Lemma getPasteFilePath_sanitize e a b :
  sanitize a = sanitize b → getPasteFilePath e a = getPasteFilePath e b.
Proof. intros Hab. unfold getPasteFilePath. by rewrite Hab. Qed.

Lemma fileGet_sanitize e a b now d :
  sanitize a = sanitize b → fileGet e a now d = fileGet e b now d.
Proof.
  intros Hab. unfold fileGet. by rewrite (getPasteFilePath_sanitize e a b).
Qed.

Lemma getPaste_sanitize e a b now w :
  getStorageMode e = file_mode → sanitize a = sanitize b →
  getPaste e a now w = getPaste e b now w.
Proof.
  intros Hmode Hab. rewrite !getPaste_file by done.
  by rewrite (fileGet_sanitize e a b).
Qed.

(** C10.  On the file backend two raw ids with the same sanitized form
    name the same file, so [getPaste] and [deletePaste] do the same on
    both, and a record saved under one (by a save that resolved) is read
    back under the other.  The ephemeral backend keys on the raw id:
    saving under one id leaves what is read under a different id as it
    was. *)
Theorem sanitized_ids_alias (e : Env) (a b : string) (now : Z) (w : World) :
  (getStorageMode e = file_mode → sanitize a = sanitize b →
     getPasteFilePath e a = getPasteFilePath e b ∧
     getPaste e a now w = getPaste e b now w ∧
     deletePaste e a now w = deletePaste e b now w ∧
     (∀ p now0, id p = a → not_passed now p →
                (savePaste e p now0 w).1 = Resolved →
                (getPaste e b now (savePaste e p now0 w).2).1 = Some p)) ∧
  (getStorageMode e = memory_mode → a ≠ b →
     ∀ p now0, id p = a →
               (getPaste e b now (savePaste e p now0 w).2).1 = (getPaste e b now w).1).
Proof.
  split.
  - intros Hmode Hab. split; [by apply getPasteFilePath_sanitize|].
    split; [by apply getPaste_sanitize|]. split.
    + rewrite !deletePaste_file by done.
      by rewrite (getPasteFilePath_sanitize e a b).
    + intros p now0 <- Hnp Hok.
      rewrite <- (getPaste_sanitize e (id p) b) by done.
      by apply savePaste_getPaste.
  - intros Hmode Hne p now0 <-. rewrite savePaste_memory_world by done.
    rewrite !getPaste_memory by done. cbn [fst memStore]. unfold memGet, memSet.
    rewrite Map_get_set_ne by done.
    destruct (Map_get b (memStore w)) as [q|]; [|done].
    by destruct (truthy (expiresAt q) && (to_number (expiresAt q) <? now)).
Qed.

Lemma sanitized_ids_alias_witness :
  getPaste env_file "../V1StGXR8_Z" 2000 world_dir
    = getPaste env_file "V1StGXR8_Z" 2000 world_dir ∧
  deletePaste env_file "../V1StGXR8_Z" 2000 world_dir
    = deletePaste env_file "V1StGXR8_Z" 2000 world_dir ∧
  (getPaste env_memory "../V1StGXR8_Z" 2000
     (savePaste env_memory paste_a 1000 empty_world).2).1
    = (getPaste env_memory "../V1StGXR8_Z" 2000 empty_world).1.
Proof.
  split; [|split].
  - apply (proj1 (sanitized_ids_alias env_file "../V1StGXR8_Z" "V1StGXR8_Z"
                    2000 world_dir)); reflexivity.
  - apply (proj1 (sanitized_ids_alias env_file "../V1StGXR8_Z" "V1StGXR8_Z"
                    2000 world_dir)); reflexivity.
  - apply (proj2 (sanitized_ids_alias env_memory "V1StGXR8_Z" "../V1StGXR8_Z"
                    2000 empty_world)); [reflexivity|discriminate|reflexivity].
Defined.

(** In memory the two ids of the witness are different keys. *)
Example memory_keys_on_raw_id :
  (getPaste env_memory "V1StGXR8_Z" 2000 world_ties).1 = Some paste_a ∧
  (getPaste env_memory "../V1StGXR8_Z" 2000 world_ties).1 = None.
Proof. split; reflexivity. Qed.

(** ** Identifier safety *)

(** Without the sanitizer the path would leave the managed directory. *)
Example unsanitized_path_escapes :
  path_join (DATA_DIR env_file) ["../../etc/passwd" +:+ ".json"]
    = ["srv"; "app"; "etc"; "passwd.json"] ∧
  getPasteFilePath env_file "../../etc/passwd"
    = ["srv"; "app"; "data"; "pastes"; "etcpasswd.json"].
Proof. split; reflexivity. Qed.

Lemma op_confined_file e id o :
  op_path o = getPasteFilePath e id → (∀ p, o ≠ OpMkdir p) → op_confined e o.
Proof.
  intros Hp Hne. right. split; [|done]. rewrite Hp. apply getPasteFilePath_inside.
Qed.

Lemma confined_step_refl_log e d F ops D R T :
  Forall (op_confined e) ops →
  (∀ q, ¬ directly_inside (DATA_DIR e) q → F !! q = files d !! q) →
  confined_step e d (mkDisk F (oplog d ++ ops) D R T).
Proof. intros Hops HF. split; [by exists ops|done]. Qed.

(** Each operation of the list is known to be confined. *)
Ltac confined_ops :=
  repeat (apply Forall_cons_2; [assumption|]); apply Forall_nil_2.

Lemma fileGet_confined e id now d : confined_step e d (fileGet e id now d).2.
Proof.
  assert (Hread : op_confined e (OpReadFile (getPasteFilePath e id)))
    by (by apply (op_confined_file e id)).
  assert (Hunlink : op_confined e (OpUnlink (getPasteFilePath e id)))
    by (by apply (op_confined_file e id)).
  destruct (files d !! getPasteFilePath e id) as [[p|raw]|] eqn:Hf.
  - destruct (expired_on_read now p) eqn:Hexp.
    + rewrite (fileGet_expired _ _ _ _ p) by done. simpl.
      apply confined_step_refl_log; [confined_ops|].
      intros q Hq. apply lookup_delete_ne. intros <-.
      apply Hq, getPasteFilePath_inside.
    + rewrite (fileGet_live _ _ _ _ p) by done. simpl.
      apply confined_step_refl_log; [confined_ops|done].
  - rewrite (fileGet_corrupt _ _ _ _ raw) by done. simpl.
    apply confined_step_refl_log; [confined_ops|done].
  - rewrite fileGet_absent by done. simpl.
    apply confined_step_refl_log; [confined_ops|done].
Qed.

Lemma fileSet_confined e p d : confined_step e d (fileSet e p d).2.
Proof.
  split.
  - eexists. split; [apply fileSet_oplog|].
    constructor; [by left|]. constructor; [|done].
    by apply (op_confined_file e (id p)).
  - intros q Hq. rewrite fileSet_files.
    destruct (write_leaves e p d); [|done].
    apply lookup_insert_ne. intros <-.
    apply Hq, getPasteFilePath_inside.
Qed.

Lemma unlink_confined e id d :
  confined_step e d (fs_unlink (getPasteFilePath e id) d).2.
Proof.
  unfold fs_unlink, log_op, set_files. simpl. apply confined_step_refl_log.
  - constructor; [|done]. by apply (op_confined_file e id).
  - intros q Hq. apply lookup_delete_ne. intros <-.
    apply Hq, getPasteFilePath_inside.
Qed.

(** C2, as the code has it.  For every raw id the file backend builds the
    path from the id with every character outside [[A-Za-z0-9_-]] stripped:
    the path is a file directly inside the managed directory, and
    [getPaste], [savePaste] and [deletePaste] issue file operations only
    there and change no file elsewhere.  [getPaste] returns null whenever
    the directory has no file named by the sanitized id; in general it
    returns the live record of that file. *)
Theorem file_backend_confined (e : Env) (raw : string) (now : Z) (w : World) :
  getStorageMode e = file_mode →
  getPasteFilePath e raw = DATA_DIR e ++ [sanitize raw +:+ ".json"] ∧
  string_forall safe_char (sanitize raw) = true ∧
  directly_inside (DATA_DIR e) (getPasteFilePath e raw) ∧
  confined_step e (disk w) (disk (getPaste e raw now w).2) ∧
  confined_step e (disk w) (disk (deletePaste e raw now w).2) ∧
  (∀ p, id p = raw → confined_step e (disk w) (disk (savePaste e p now w).2)) ∧
  (files (disk w) !! (DATA_DIR e ++ [sanitize raw +:+ ".json"]) = None →
   (getPaste e raw now w).1 = None) ∧
  (getPaste e raw now w).1 =
    match files (disk w) !! (DATA_DIR e ++ [sanitize raw +:+ ".json"]) with
    | Some (Json p) => if expired_on_read now p then None else Some p
    | _ => None
    end.
Proof.
  intros Hmode.
  split; [apply getPasteFilePath_eq|].
  split; [apply sanitize_safe|].
  split; [apply getPasteFilePath_inside|].
  split; [|split; [|split; [|split]]].
  - rewrite getPaste_file by done. simpl. apply fileGet_confined.
  - rewrite deletePaste_file by done. simpl. apply (unlink_confined e raw).
  - intros p <-. rewrite savePaste_file_world by done. apply fileSet_confined.
  - intros Habs. rewrite <- getPasteFilePath_eq in Habs.
    rewrite getPaste_file by done. by rewrite fileGet_absent.
  - rewrite getPaste_file by done. simpl.
    rewrite <- getPasteFilePath_eq. apply fileGet_result.
Qed.

Lemma file_backend_confined_witness :
  getPasteFilePath env_file "../../etc/passwd"
    = DATA_DIR env_file ++ ["etcpasswd.json"] ∧
  confined_step env_file (disk world_dir)
    (disk (getPaste env_file "../../etc/passwd" 2000 world_dir).2) ∧
  (getPaste env_file "../../etc/passwd" 2000 world_dir).1 = None.
Proof.
  pose proof (file_backend_confined env_file "../../etc/passwd" 2000 world_dir
                eq_refl) as (Hpath & _ & _ & Hget & _ & _ & Hnone & _).
  split; [exact Hpath|]. split; [exact Hget|].
  apply Hnone. vm_compute. reflexivity.
Defined.

(** C2 as stated fails in its last clause: an id with ["../"] in it whose
    sanitized form is the id of a stored record reads that record. *)
Lemma traversal_id_found_counterexample :
  sanitize "../V1StGXR8_Z" = "V1StGXR8_Z" ∧
  (getPaste env_file "../V1StGXR8_Z" 2000 world_dir).1 = Some paste_a.
Proof. split; vm_compute; reflexivity. Qed.

(** ** Identifiers that sanitize to nothing *)

(** C6, as the code has it.  The file backend has no guard for a raw id
    whose sanitized form is empty: every such id names the one file
    [.json] of the managed directory.  [getPaste] reads that file, does
    exactly what it does on the empty id, and returns null only when the
    file is absent, does not parse, or holds an expired record. *)
Theorem empty_sanitized_id_shared_file (e : Env) (raw : string) (now : Z) (w : World) :
  getStorageMode e = file_mode → sanitize raw = "" →
  getPasteFilePath e raw = DATA_DIR e ++ [".json"] ∧
  getPaste e raw now w = getPaste e "" now w ∧
  OpReadFile (DATA_DIR e ++ [".json"]) ∈ oplog (disk (getPaste e raw now w).2) ∧
  (getPaste e raw now w).1 =
    match files (disk w) !! (DATA_DIR e ++ [".json"]) with
    | Some (Json p) => if expired_on_read now p then None else Some p
    | _ => None
    end.
Proof.
  intros Hmode Hraw.
  assert (Hpath : getPasteFilePath e raw = DATA_DIR e ++ [".json"])
    by (by rewrite getPasteFilePath_eq, Hraw).
  split; [done|]. split; [by apply getPaste_sanitize|].
  rewrite getPaste_file by done. simpl. rewrite <- Hpath.
  split; [apply fileGet_reads|apply fileGet_result].
Qed.

Lemma empty_sanitized_id_shared_file_witness :
  getPasteFilePath env_file "//" = DATA_DIR env_file ++ [".json"] ∧
  getPaste env_file "//" 4000 world_shared = getPaste env_file "" 4000 world_shared.
Proof.
  pose proof (empty_sanitized_id_shared_file env_file "//" 4000 world_shared
                eq_refl eq_refl) as (Hpath & Hsame & _).
  by split.
Defined.

(** C6 as stated fails: after a record was saved under the id ["../"],
    the non-empty id ["//"], whose sanitized form is empty too, reads the
    shared file and returns that record. *)
Lemma empty_sanitized_id_counterexample :
  sanitize "//" = "" ∧ id paste_dots = "../" ∧ sanitize "../" = "" ∧
  (getPaste env_file "//" 4000 world_shared).1 = Some paste_dots ∧
  oplog (disk (getPaste env_file "//" 4000 empty_world).2)
    = [OpReadFile ["srv"; "app"; "data"; "pastes"; ".json"]].
Proof. repeat split; vm_compute; reflexivity. Qed.

(** ** The disk stays well formed *)

Lemma disk_wf_lookup d :
  disk_wf d = true ↔
  ∀ q c, files d !! q = Some c → forallb plain_segment q = true.
Proof.
  unfold disk_wf. rewrite forallb_forall. split.
  - intros Hwf q c Hq. apply (Hwf (q, c)).
    by apply list_elem_of_In, elem_of_map_to_list.
  - intros Hwf [q c] Hin. apply (Hwf q c).
    by apply elem_of_map_to_list, list_elem_of_In.
Qed.

Lemma disk_wf_shrink d d' :
  (∀ q c, files d' !! q = Some c → files d !! q = Some c) →
  disk_wf d = true → disk_wf d' = true.
Proof.
  rewrite !disk_wf_lookup. intros Hsub Hwf q c Hq. by apply (Hwf q c), Hsub.
Qed.

Lemma getPasteFilePath_plain e id :
  forallb plain_segment (cwd e) = true →
  forallb plain_segment (getPasteFilePath e id) = true.
Proof.
  intros Hcwd. rewrite getPasteFilePath_eq, DATA_DIR_eq, !forallb_app, Hcwd.
  simpl. by rewrite json_name_plain by apply sanitize_safe.
Qed.

Lemma disk_wf_fileSet e p d :
  forallb plain_segment (cwd e) = true →
  disk_wf d = true → disk_wf (fileSet e p d).2 = true.
Proof.
  rewrite !disk_wf_lookup. intros Hcwd Hwf q c. rewrite fileSet_files.
  destruct (write_leaves e p d); [|by apply (Hwf q c)].
  intros [[<- _]|[_ Hq]]%lookup_insert_Some.
  - by apply getPasteFilePath_plain.
  - by apply (Hwf q c).
Qed.

Lemma disk_wf_fileGet e id now d :
  disk_wf d = true → disk_wf (fileGet e id now d).2 = true.
Proof.
  apply disk_wf_shrink. intros q c.
  destruct (files d !! getPasteFilePath e id) as [[p|raw]|] eqn:Hf.
  - destruct (expired_on_read now p) eqn:Hexp.
    + rewrite (fileGet_expired _ _ _ _ p) by done. simpl.
      by intros [_ ?]%lookup_delete_Some.
    + by rewrite (fileGet_live _ _ _ _ p).
  - by rewrite (fileGet_corrupt _ _ _ _ raw).
  - by rewrite fileGet_absent.
Qed.

(** Every call of the public API keeps the disk well formed, when the
    working directory is a proper path. *)
Lemma disk_wf_preserved e now w :
  forallb plain_segment (cwd e) = true → disk_wf (disk w) = true →
  (∀ p, disk_wf (disk (savePaste e p now w).2) = true) ∧
  (∀ id, disk_wf (disk (getPaste e id now w).2) = true) ∧
  (∀ id, disk_wf (disk (deletePaste e id now w).2) = true) ∧
  disk_wf (disk (getAllPastes e now w).2) = true.
Proof.
  intros Hcwd Hwf. destruct (getStorageMode e) eqn:Hm.
  - split; [|split; [|split]].
    + intros p. unfold savePaste. by rewrite Hm.
    + intros id. by rewrite getPaste_redis.
    + intros id. by rewrite deletePaste_redis.
    + unfold getAllPastes. by rewrite Hm.
  - split; [|split; [|split]].
    + intros p. rewrite savePaste_file_world by done. by apply disk_wf_fileSet.
    + intros id. rewrite getPaste_file by done. simpl. by apply disk_wf_fileGet.
    + intros id. rewrite deletePaste_file by done. simpl.
      apply (disk_wf_shrink (disk w)); [|done]. simpl.
      by intros q c [_ ?]%lookup_delete_Some.
    + apply (disk_wf_shrink (disk w)); [|done]. intros q c.
      rewrite getAllPastes_file_files by done.
      by destruct (swept e now (files (disk w)) q).
  - split; [|split; [|split]].
    + intros p. unfold savePaste. by rewrite Hm.
    + intros id. by rewrite getPaste_memory.
    + intros id. by rewrite deletePaste_memory.
    + unfold getAllPastes. by rewrite Hm.
Qed.

(** ** The in-memory map keeps one entry per key *)

Lemma Map_set_keys k v m :
  (Map_set k v m).*1 = m.*1 ∨ (Map_set k v m).*1 = m.*1 ++ [k] ∧ k ∉ m.*1.
Proof.
  induction m as [|[k' v'] m IH]; simpl.
  - right. split; [done|]. apply not_elem_of_nil.
  - destruct (String.eqb_spec k k') as [->|Hne]; [by left|].
    rewrite !fmap_cons. simpl.
    destruct IH as [->|[-> Hnot]]; [by left|].
    right. split; [done|]. by apply not_elem_of_cons.
Qed.

Lemma Map_set_NoDup k v m : NoDup m.*1 → NoDup (Map_set k v m).*1.
Proof.
  intros Hnd. destruct (Map_set_keys k v m) as [->|[-> Hnot]]; [done|].
  apply NoDup_app. split; [done|]. split; [|apply NoDup_singleton].
  intros x Hx ->%list_elem_of_singleton. done.
Qed.

Lemma Map_delete_NoDup k m : NoDup m.*1 → NoDup (Map_delete k m).2.*1.
Proof.
  simpl. induction m as [|[k' v'] m IH]; simpl; [done|].
  intros [Hnot Hnd]%NoDup_cons.
  destruct (String.eqb k k'); simpl; [by apply IH|].
  apply NoDup_cons. split; [|by apply IH].
  intros Hin. apply Hnot.
  apply list_elem_of_fmap in Hin as ([k0 v0] & -> & Hin).
  apply list_elem_of_fmap. exists (k0, v0). split; [done|].
  apply list_elem_of_In in Hin. apply filter_In in Hin as [Hin _].
  by apply list_elem_of_In.
Qed.

(** * Further properties of the storage module *)

(** ** What a read depends on *)

Lemma memGet_result id now m :
  (memGet id now m).1 =
    match Map_get id m with
    | Some p => if expired_on_read now p then None else Some p
    | None => None
    end.
Proof.
  unfold memGet, expired_on_read. destruct (Map_get id m) as [p|]; [|done].
  by destruct (truthy (expiresAt p) && (to_number (expiresAt p) <? now)).
Qed.

Lemma getPaste_result e key now w :
  (getPaste e key now w).1 =
    match getStorageMode e with
    | redis_mode => redis_live ("paste:" +:+ key) now (redis w)
    | file_mode =>
        match files (disk w) !! getPasteFilePath e key with
        | Some (Json p) => if expired_on_read now p then None else Some p
        | _ => None
        end
    | memory_mode =>
        match Map_get key (memStore w) with
        | Some p => if expired_on_read now p then None else Some p
        | None => None
        end
    end.
Proof.
  destruct (getStorageMode e) eqn:Hm.
  - by rewrite getPaste_redis.
  - rewrite getPaste_file by done. apply fileGet_result.
  - rewrite getPaste_memory by done. apply memGet_result.
Qed.

Lemma memGet_store id now m :
  (memGet id now m).2 = m ∨ (memGet id now m).2 = (Map_delete id m).2.
Proof.
  unfold memGet. destruct (Map_get id m) as [p|]; [|by left].
  destruct (truthy (expiresAt p) && (to_number (expiresAt p) <? now));
    [by right|by left].
Qed.

Lemma fileGet_files e id now d :
  files (fileGet e id now d).2 = files d ∨
  files (fileGet e id now d).2 = delete (getPasteFilePath e id) (files d).
Proof.
  destruct (files d !! getPasteFilePath e id) as [[p|raw]|] eqn:Hf.
  - destruct (expired_on_read now p) eqn:Hexp.
    + rewrite (fileGet_expired _ _ _ _ p) by done. by right.
    + rewrite (fileGet_live _ _ _ _ p) by done. by left.
  - rewrite (fileGet_corrupt _ _ _ _ raw) by done. by left.
  - rewrite fileGet_absent by done. by left.
Qed.

Lemma append_inj_l (t s1 s2 : string) : t +:+ s1 = t +:+ s2 → s1 = s2.
Proof.
  induction t as [|c t IH]; intros Heq; [exact Heq|].
  apply IH. by injection Heq.
Qed.

Lemma redis_key_inj a b : "paste:" +:+ a = "paste:" +:+ b → a = b.
Proof. apply append_inj_l. Qed.

Lemma redisSet_db p now r :
  ∃ deadline, db (redisSet p now r) = <["paste:" +:+ id p := (p, deadline)]> (db r).
Proof.
  unfold redisSet, redis_set.
  destruct (truthy (expiresAt p)); [|eexists; reflexivity].
  destruct (0 <? ceil_div_1000 (to_number (expiresAt p) - now));
    eexists; reflexivity.
Qed.

(** ** Operations on one id leave the other ids alone *)

Lemma savePaste_frame e p k now0 now w :
  ¬ aliases e (id p) k →
  (getPaste e k now (savePaste e p now0 w).2).1 = (getPaste e k now w).1.
Proof.
  unfold aliases. intros Hne. rewrite !getPaste_result.
  destruct (getStorageMode e) eqn:Hm.
  - rewrite savePaste_redis_world by done. cbn [redis].
    unfold redis_live. destruct (redisSet_db p now0 (redis w)) as [dl ->].
    rewrite lookup_insert_ne; [done|]. by intros ?%redis_key_inj.
  - rewrite savePaste_file_world by done. cbn [disk]. rewrite fileSet_files.
    destruct (write_leaves e p (disk w)); [|done].
    rewrite lookup_insert_ne; [done|]. by intros ?%getPasteFilePath_inj.
  - rewrite savePaste_memory_world by done. cbn [memStore].
    unfold memSet. by rewrite Map_get_set_ne.
Qed.

Lemma deletePaste_frame e a k now now' w :
  ¬ aliases e a k →
  (getPaste e k now' (deletePaste e a now w).2).1 = (getPaste e k now' w).1.
Proof.
  unfold aliases. intros Hne. rewrite !getPaste_result.
  destruct (getStorageMode e) eqn:Hm.
  - rewrite deletePaste_redis by done. unfold redis_live. simpl.
    rewrite lookup_delete_ne; [done|]. by intros ?%redis_key_inj.
  - rewrite deletePaste_file by done. simpl.
    rewrite lookup_delete_ne; [done|]. by intros ?%getPasteFilePath_inj.
  - rewrite deletePaste_memory by done. cbn [snd memStore].
    by rewrite (Map_get_delete_ne a k).
Qed.

Lemma getPaste_frame e a k now now' w :
  ¬ aliases e a k →
  (getPaste e k now' (getPaste e a now w).2).1 = (getPaste e k now' w).1.
Proof.
  unfold aliases. intros Hne. rewrite !(getPaste_result e k).
  destruct (getStorageMode e) eqn:Hm.
  - by rewrite getPaste_redis.
  - rewrite getPaste_file by done. cbn [snd disk].
    destruct (fileGet_files e a now (disk w)) as [->| ->]; [done|].
    rewrite lookup_delete_ne; [done|]. by intros ?%getPasteFilePath_inj.
  - rewrite getPaste_memory by done. cbn [snd memStore].
    destruct (memGet_store a now (memStore w)) as [->| ->]; [done|].
    by rewrite (Map_get_delete_ne a k).
Qed.

(** X1.  Saving, deleting or reading under one id changes nothing of
    what [getPaste] returns for an id that does not name the same record
    (another raw id on the memory and remote backends, an id with another
    sanitized form on the file backend). *)
Theorem other_ids_untouched (e : Env) (a k : string) (now now' : Z) (w : World) :
  ¬ aliases e a k →
  (∀ p, id p = a →
        (getPaste e k now' (savePaste e p now w).2).1 = (getPaste e k now' w).1) ∧
  (getPaste e k now' (deletePaste e a now w).2).1 = (getPaste e k now' w).1 ∧
  (getPaste e k now' (getPaste e a now w).2).1 = (getPaste e k now' w).1.
Proof.
  intros Hne. split; [|split].
  - intros p <-. by apply savePaste_frame.
  - by apply deletePaste_frame.
  - by apply getPaste_frame.
Qed.

Lemma other_ids_untouched_witness :
  (getPaste env_file "k3Jx-0aQpL" 2000
     (deletePaste env_file "../V1StGXR8_Z" 1500 world_dir).2).1
    = (getPaste env_file "k3Jx-0aQpL" 2000 world_dir).1 ∧
  (getPaste env_file "k3Jx-0aQpL" 7000
     (getPaste env_file "V1StGXR8_Z" 6000 world_dir).2).1
    = (getPaste env_file "k3Jx-0aQpL" 7000 world_dir).1.
Proof.
  split.
  - apply (other_ids_untouched env_file "../V1StGXR8_Z" "k3Jx-0aQpL" 1500 2000 world_dir).
    vm_compute. discriminate.
  - apply (other_ids_untouched env_file "V1StGXR8_Z" "k3Jx-0aQpL" 6000 7000 world_dir).
    vm_compute. discriminate.
Defined.

(** ** Reading a missing id, and reading without evicting *)

Lemma holds_false_result e id now w :
  holds e id now w = false → (getPaste e id now w).1 = None.
Proof.
  unfold holds. rewrite getPaste_result. destruct (getStorageMode e).
  - intros Hh%bool_decide_eq_false. destruct (redis_live _ _ _); [|done].
    destruct Hh. by eexists.
  - intros Hh%bool_decide_eq_false.
    destruct (files (disk w) !! getPasteFilePath e id); [|done].
    destruct Hh. by eexists.
  - unfold Map_has. by destruct (Map_get id (memStore w)).
Qed.

Lemma same_contents_refl w : same_contents w w.
Proof. by repeat split. Qed.

(** X2.  [getPaste] on an id under which nothing is held returns null,
    and [getPaste] alters the stored contents only when it evicts an
    expired record: whenever nothing is held under the id, and whenever a
    record is returned, the [Map], the files and the remote database are
    as before. *)
Theorem getPaste_missing_or_live (e : Env) (id : string) (now : Z) (w : World) :
  (holds e id now w = false → (getPaste e id now w).1 = None) ∧
  (holds e id now w = false ∨ is_Some (getPaste e id now w).1 →
   same_contents w (getPaste e id now w).2).
Proof.
  split; [apply holds_false_result|].
  intros Hcase.
  assert (Hres : (getPaste e id now w).1 = None → holds e id now w = false)
    by (by destruct Hcase as [?|[p Hp]]; [|rewrite Hp]).
  clear Hcase. unfold holds in Hres. rewrite getPaste_result in Hres.
  destruct (getStorageMode e) eqn:Hm.
  - rewrite getPaste_redis by done. by repeat split.
  - rewrite getPaste_file by done. unfold same_contents. cbn [snd disk memStore redis].
    split; [done|]. split; [|done].
    destruct (files (disk w) !! getPasteFilePath e id) as [[p|raw]|] eqn:Hf.
    + destruct (expired_on_read now p) eqn:Hexp.
      * specialize (Hres eq_refl). apply bool_decide_eq_false in Hres.
        destruct Hres. by eexists.
      * by rewrite (fileGet_live _ _ _ _ p).
    + by rewrite (fileGet_corrupt _ _ _ _ raw).
    + by rewrite fileGet_absent.
  - rewrite getPaste_memory by done. unfold same_contents. cbn [snd disk memStore redis].
    split; [|done]. unfold memGet, Map_has in *.
    destruct (Map_get id (memStore w)) as [p|]; [|done].
    unfold expired_on_read in Hres.
    destruct (truthy (expiresAt p) && (to_number (expiresAt p) <? now)); [|done].
    by specialize (Hres eq_refl).
Qed.

Lemma getPaste_missing_or_live_witness :
  (getPaste env_file "nosuchid00" 2000 world_dir).1 = None ∧
  same_contents world_dir (getPaste env_file "nosuchid00" 2000 world_dir).2 ∧
  same_contents world_dir (getPaste env_file "V1StGXR8_Z" 2000 world_dir).2.
Proof.
  pose proof (getPaste_missing_or_live env_file "nosuchid00" 2000 world_dir)
    as [Hnone Hsame].
  pose proof (getPaste_missing_or_live env_file "V1StGXR8_Z" 2000 world_dir)
    as [_ Hlive].
  split; [|split].
  - apply Hnone. vm_compute. reflexivity.
  - apply Hsame. left. vm_compute. reflexivity.
  - apply Hlive. right. vm_compute. by eexists.
Defined.

(** ** Deleting, then reading *)

Lemma getPaste_after_delete e id k now now' w :
  aliases e id k →
  (getPaste e k now' (deletePaste e id now w).2).1 = None.
Proof.
  unfold aliases. intros Hal. rewrite getPaste_result.
  destruct (getStorageMode e) eqn:Hm.
  - subst k. rewrite deletePaste_redis by done. unfold redis_live. simpl.
    by rewrite lookup_delete_eq.
  - rewrite deletePaste_file by done. simpl.
    rewrite (getPasteFilePath_sanitize e k id) by done.
    by rewrite lookup_delete_eq.
  - subst k. rewrite deletePaste_memory by done. cbn [snd memStore].
    by rewrite Map_get_delete_eq.
Qed.

(** X3.  [deletePaste id] returns [true] exactly when a record is held
    under [id]; afterwards [getPaste] returns null for [id] and for every
    id that names the same record, at every time. *)
Theorem deletePaste_then_getPaste (e : Env) (id k : string) (now now' : Z) (w : World) :
  aliases e id k →
  (deletePaste e id now w).1 = holds e id now w ∧
  (getPaste e k now' (deletePaste e id now w).2).1 = None ∧
  (getPaste e id now' (deletePaste e id now w).2).1 = None.
Proof.
  intros Hal. split; [apply deletePaste_result|]. split.
  - by apply getPaste_after_delete.
  - apply getPaste_after_delete. unfold aliases. by destruct (getStorageMode e).
Qed.

Lemma deletePaste_then_getPaste_witness :
  (deletePaste env_file "../V1StGXR8_Z" 1500 world_dir).1 = true ∧
  (getPaste env_file "V1StGXR8_Z" 2000
     (deletePaste env_file "../V1StGXR8_Z" 1500 world_dir).2).1 = None.
Proof.
  pose proof (deletePaste_then_getPaste env_file "../V1StGXR8_Z" "V1StGXR8_Z"
                1500 2000 world_dir eq_refl) as (Hres & Hgone & _).
  split; [|exact Hgone]. rewrite Hres. vm_compute. reflexivity.
Defined.

Lemma redis_live_later key now now' r :
  now ≤ now' → redis_live key now r = None → redis_live key now' r = None.
Proof.
  unfold redis_live. intros Hle.
  destruct (db r !! key) as [[v [dl|]]|]; [|done..].
  destruct (Z.ltb_spec now dl); [done|]. intros _.
  destruct (Z.ltb_spec now' dl); [lia|done].
Qed.

(** X4.  [deletePaste] on an id under which nothing is held returns
    [false] and changes nothing that a read can see: from then on
    [getPaste] returns for every id what it would have returned. *)
Theorem deletePaste_absent (e : Env) (id : string) (now : Z) (w : World) :
  holds e id now w = false →
  (deletePaste e id now w).1 = false ∧
  ∀ k now', now ≤ now' →
    (getPaste e k now' (deletePaste e id now w).2).1 = (getPaste e k now' w).1.
Proof.
  intros Hh. split; [by rewrite deletePaste_result|].
  intros k now' Hle. destruct (decide (aliases e id k)) as [Hal|Hne].
  - rewrite getPaste_after_delete by done. symmetry.
    revert Hh. unfold holds, aliases in *. rewrite getPaste_result.
    destruct (getStorageMode e).
    + subst k. intros Hh%bool_decide_eq_false.
      apply (redis_live_later _ now); [done|].
      destruct (redis_live _ now _); [|done]. destruct Hh. by eexists.
    + rewrite (getPasteFilePath_sanitize e k id) by done.
      intros Hh%bool_decide_eq_false.
      destruct (files (disk w) !! getPasteFilePath e id); [|done].
      destruct Hh. by eexists.
    + subst k. unfold Map_has. by destruct (Map_get id (memStore w)).
  - by apply deletePaste_frame.
Qed.

Lemma deletePaste_absent_witness :
  (deletePaste env_file "nosuchid00" 1500 world_dir).1 = false ∧
  (getPaste env_file "V1StGXR8_Z" 2000
     (deletePaste env_file "nosuchid00" 1500 world_dir).2).1
    = (getPaste env_file "V1StGXR8_Z" 2000 world_dir).1.
Proof.
  assert (Hh : holds env_file "nosuchid00" 1500 world_dir = false)
    by (vm_compute; reflexivity).
  pose proof (deletePaste_absent env_file "nosuchid00" 1500 world_dir Hh)
    as [Hres Hsame].
  split; [exact Hres|]. apply Hsame. lia.
Defined.

(** ** A file that does not parse *)

(** X5.  On the file backend an id whose file does not parse reads as
    null and the file stays in place: the id remains occupied, so
    [deletePaste] returns [true] for it, and only a delete or a new save
    under the id clears it.  The directory holds the file, so the save
    resolves as soon as the file name is not too long, the disk does not
    refuse the file and does not run out of space. *)
Theorem corrupt_file_occupies_id (e : Env) (key raw : string) (now : Z) (w : World) :
  getStorageMode e = file_mode →
  files (disk w) !! getPasteFilePath e key = Some (Corrupt raw) →
  (getPaste e key now w).1 = None ∧
  files (disk (getPaste e key now w).2) = files (disk w) ∧
  (deletePaste e key now w).1 = true ∧
  (∀ p now0, aliases e (id p) key → not_passed now p →
             name_too_long (getPasteFilePath e key) = false →
             refuses (disk w) (getPasteFilePath e key) = false →
             tears (disk w) (getPasteFilePath e key) = None →
             (savePaste e p now0 w).1 = Resolved ∧
             (getPaste e key now (savePaste e p now0 w).2).1 = Some p).
Proof.
  intros Hmode Hf. split; [|split; [|split]].
  - rewrite getPaste_file by done. by rewrite (fileGet_corrupt _ _ _ _ raw).
  - rewrite getPaste_file by done. by rewrite (fileGet_corrupt _ _ _ _ raw).
  - rewrite deletePaste_file by done. simpl. rewrite Hf.
    apply bool_decide_eq_true. by eexists.
  - intros p now0 Hal Hnp Hname Hrefuse Htear. unfold aliases in Hal.
    rewrite Hmode in Hal.
    assert (Hok : (savePaste e p now0 w).1 = Resolved).
    { rewrite savePaste_outcome.
      unfold save_accepted, write_accepted, write_opens.
      rewrite Hmode. rewrite (getPasteFilePath_sanitize e (id p) key) by done.
      rewrite Hrefuse, Htear. rewrite name_too_long_json in Hname.
      apply negb_false_iff in Hname. rewrite <- Hal in Hname. rewrite Hname.
      rewrite getPasteFilePath_eq in Hf.
      by rewrite (dir_exists_of_file _ _ _ _ Hf). }
    split; [done|].
    rewrite <- (getPaste_sanitize e (id p) key) by done.
    by apply savePaste_getPaste.
Qed.

Lemma corrupt_file_occupies_id_witness :
  (getPaste env_file "broken" 2000 world_dir).1 = None ∧
  files (disk (getPaste env_file "broken" 2000 world_dir).2) = files (disk world_dir) ∧
  (deletePaste env_file "broken" 2000 world_dir).1 = true.
Proof.
  pose proof (corrupt_file_occupies_id env_file "broken" "{" 2000 world_dir
                eq_refl) as Hx.
  destruct Hx as (Hnone & Hsame & Hdel & _); [vm_compute; reflexivity|].
  by repeat split.
Defined.

(** ** Well-formed ids *)

(** X6.  The sanitizer is idempotent and keeps an id made of
    [[A-Za-z0-9_-]] as it is, so such an id is stored in the file
    [<id>.json] and two different such ids never name the same record, on
    any backend. *)
Theorem wellformed_ids_do_not_collide (e : Env) (a b : string) :
  string_forall safe_char a = true → string_forall safe_char b = true →
  sanitize a = a ∧
  getPasteFilePath e a = DATA_DIR e ++ [a +:+ ".json"] ∧
  (aliases e a b ↔ a = b) ∧
  ∀ x, sanitize (sanitize x) = sanitize x ∧
       getPasteFilePath e (sanitize x) = getPasteFilePath e x.
Proof.
  intros Ha Hb.
  pose proof (sanitize_fixed a Ha) as Hsa.
  pose proof (sanitize_fixed b Hb) as Hsb.
  split; [done|]. split; [by rewrite getPasteFilePath_eq, Hsa|]. split.
  - unfold aliases. destruct (getStorageMode e); [done| |done].
    by rewrite Hsa, Hsb.
  - intros x. split; [apply sanitize_idem|].
    apply getPasteFilePath_sanitize, sanitize_idem.
Qed.

Lemma wellformed_ids_do_not_collide_witness :
  getPasteFilePath env_file "V1StGXR8_Z"
    = DATA_DIR env_file ++ ["V1StGXR8_Z.json"] ∧
  (aliases env_file "V1StGXR8_Z" "k3Jx-0aQpL" ↔ "V1StGXR8_Z" = "k3Jx-0aQpL").
Proof.
  pose proof (wellformed_ids_do_not_collide env_file "V1StGXR8_Z" "k3Jx-0aQpL"
                eq_refl eq_refl) as (_ & Hpath & Hal & _).
  by split.
Defined.

(** ** How long the remote backend keeps a record *)

(** X7.  On the remote backend a paste saved at [now0] before its expiry
    instant [t] (not [0]) is served until an instant [d] that lies a whole
    number of seconds after [now0], with [t ≤ d < t + 1000], and is gone
    from [d] on: it outlives [t] by less than a second. *)
Theorem remote_expiry_window (e : Env) (p : Paste) (t now0 : Z) (w : World) :
  getStorageMode e = redis_mode →
  expiresAt p = Some t → t ≠ 0 → now0 < t →
  ∃ d, t ≤ d < t + 1000 ∧ (∃ k, 0 < k ∧ d = now0 + 1000 * k) ∧
       ∀ now, (getPaste e (id p) now (savePaste e p now0 w).2).1 =
                if now <? d then Some p else None.
Proof.
  intros Hmode Ht H0 Hlt.
  pose proof (ceil_div_1000_bounds (t - now0)) as Hb.
  exists (now0 + 1000 * ceil_div_1000 (t - now0)).
  split; [lia|]. split; [exists (ceil_div_1000 (t - now0)); lia|].
  intros now. by apply (redis_window _ _ t).
Qed.

Lemma remote_expiry_window_witness :
  ∃ d, 5000 ≤ d < 5000 + 1000 ∧ (∃ k, 0 < k ∧ d = 4200 + 1000 * k) ∧
       ∀ now, (getPaste env_redis "V1StGXR8_Z" now
                 (savePaste env_redis paste_a 4200 empty_world).2).1 =
                if now <? d then Some paste_a else None.
Proof.
  apply (remote_expiry_window env_redis paste_a 5000 4200 empty_world);
    [reflexivity|reflexivity|lia|lia].
Defined.

(** X8.  On the remote backend a paste that is saved when its expiry
    instant has already come (or whose [expiresAt] is [0] or null) is
    written without time to live: [getPaste] returns it at every time. *)
Theorem remote_save_after_expiry_is_kept (e : Env) (p : Paste) (now0 : Z) (w : World) :
  getStorageMode e = redis_mode →
  (∀ t, expiresAt p = Some t → t ≤ now0 ∨ t = 0) →
  ∀ now, (getPaste e (id p) now (savePaste e p now0 w).2).1 = Some p.
Proof. intros Hmode Hexp now. by apply redis_kept. Qed.

Lemma remote_save_after_expiry_is_kept_witness :
  (getPaste env_redis "V1StGXR8_Z" 1700000000000
     (savePaste env_redis paste_a 5000 empty_world).2).1 = Some paste_a.
Proof.
  apply (remote_save_after_expiry_is_kept env_redis paste_a 5000 empty_world).
  - reflexivity.
  - intros t [= <-]. left. lia.
Defined.

(** ** Listing and reading agree *)

Lemma stored_result e key p now w :
  getStorageMode e ≠ redis_mode → stored e key p w →
  (getPaste e key now w).1 = if expired_on_read now p then None else Some p.
Proof.
  intros Hmode Hst. rewrite getPaste_result. unfold stored in Hst.
  destruct (getStorageMode e); [done|by rewrite Hst..].
Qed.

(** X9.  On the memory and file backends every stored record that the
    listing keeps at [now] is returned by [getPaste] at [now]; a stored
    record that [getPaste] returns but the listing drops has
    [expiresAt = now]. *)
Theorem listed_is_readable (e : Env) (key : string) (p : Paste) (now : Z) (w : World) :
  getStorageMode e ≠ redis_mode → stored e key p w →
  (listed now p = true → (getPaste e key now w).1 = Some p) ∧
  ((getPaste e key now w).1 = Some p → listed now p = false →
   expiresAt p = Some now ∧ now ≠ 0).
Proof.
  intros Hmode Hst. rewrite (stored_result e key p) by done.
  unfold expired_on_read, listed.
  destruct (expiresAt p) as [t|]; simpl; [|by split].
  destruct (Z.eqb_spec t 0) as [->|Hne]; simpl; [by split|].
  destruct (Z.ltb_spec t now), (Z.ltb_spec now t); split; try done; try lia.
  intros _ _. split; [f_equal|]; lia.
Qed.

Lemma listed_is_readable_witness :
  (getPaste env_file "V1StGXR8_Z" 4999 world_dir).1 = Some paste_a ∧
  (expiresAt paste_a = Some 5000 ∧ 5000 ≠ 0).
Proof.
  assert (Hmode : getStorageMode env_file ≠ redis_mode) by discriminate.
  assert (Hst : stored env_file "V1StGXR8_Z" paste_a world_dir)
    by (vm_compute; reflexivity).
  split.
  - apply (listed_is_readable env_file "V1StGXR8_Z" paste_a 4999 world_dir Hmode Hst).
    reflexivity.
  - apply (listed_is_readable env_file "V1StGXR8_Z" paste_a 5000 world_dir Hmode Hst);
      reflexivity.
Defined.

(** ** Listing twice *)

Lemma filter_Permutation_bool {A} (f : A → bool) (l l' : list A) :
  l ≡ₚ l' → List.filter f l ≡ₚ List.filter f l'.
Proof.
  induction 1 as [|x l l' _ IH|x y l|l1 l2 l3 _ IH1 _ IH2]; simpl.
  - done.
  - destruct (f x); by rewrite IH.
  - destruct (f x), (f y); try done. apply perm_swap.
  - by rewrite IH1.
Qed.

Lemma swept_lookup (e : Env) (now : Z) (F : gmap (list string) FileData) q :
  swept e now F q = true →
  ∃ n p, q = DATA_DIR e ++ [n] ∧ endsWith n ".json" = true ∧
         F !! q = Some (Json p) ∧ listed now p = false.
Proof.
  unfold swept. destruct (child_name (DATA_DIR e) q) as [n|] eqn:Hc; [|done].
  apply child_name_Some in Hc.
  intros [Hends Hp]%andb_true_iff.
  destruct (F !! q) as [[p|raw]|]; [|done..].
  exists n, p. by apply negb_true_iff in Hp.
Qed.

Lemma swept_twice (e : Env) (now : Z) (F F' : gmap (list string) FileData) :
  (∀ q, F' !! q = if swept e now F q then None else F !! q) →
  ∀ q, swept e now F' q = false.
Proof.
  intros HF' q. destruct (swept e now F' q) eqn:Hsw; [|done].
  pose proof Hsw as (n & p & -> & Hends & Hq & Hl)%swept_lookup.
  rewrite HF' in Hq. destruct (swept e now F (DATA_DIR e ++ [n])) eqn:Hsw0; [done|].
  unfold swept in Hsw0. by rewrite child_name_app, Hends, Hq, Hl in Hsw0.
Qed.

Lemma kept_entries (e : Env) (now : Z) (F F' : gmap (list string) FileData) :
  (∀ q, F' !! q = if swept e now F q then None else F !! q) →
  map_to_list F' ≡ₚ filter (λ kv, swept e now F kv.1 = false) (map_to_list F).
Proof.
  intros HF'. apply NoDup_Permutation.
  - apply NoDup_map_to_list.
  - apply NoDup_filter, NoDup_map_to_list.
  - intros [q c]. rewrite list_elem_of_filter, !elem_of_map_to_list, HF'. simpl.
    destruct (swept e now F q); split;
      [done|by intros [? ?]|intros ?; by split|by intros [? ?]].
Qed.

Lemma listed_records_of_kept (e : Env) (now : Z) (F : gmap (list string) FileData)
    (l : list (list string * FileData)) :
  (∀ kv, kv ∈ l → F !! kv.1 = Some kv.2) →
  List.filter (listed now)
    (omap (λ kv, match child_name (DATA_DIR e) kv.1 with
                 | Some n => if endsWith n ".json" then JSON_parse kv.2 else None
                 | None => None
                 end) (filter (λ kv, swept e now F kv.1 = false) l)) =
  List.filter (listed now)
    (omap (λ kv, match child_name (DATA_DIR e) kv.1 with
                 | Some n => if endsWith n ".json" then JSON_parse kv.2 else None
                 | None => None
                 end) l).
Proof.
  induction l as [|[q c] l IH]; intros Hl; [done|].
  assert (Hq : F !! q = Some c) by (apply (Hl (q, c)); by left).
  assert (IH' := IH (λ kv Hin, Hl kv (list_elem_of_further _ _ _ Hin))).
  clear IH Hl. rewrite filter_cons. simpl fst.
  destruct (decide (swept e now F q = false)) as [Hkeep|Hsw].
  - cbn [omap list_omap]. simpl fst. simpl snd.
    destruct (child_name (DATA_DIR e) q) as [n|]; [|done].
    destruct (endsWith n ".json"); [|done].
    destruct (JSON_parse c) as [p|]; [|done]. simpl.
    by rewrite IH'.
  - apply not_false_is_true in Hsw.
    pose proof Hsw as (n & p & -> & Hends & Hp & Hl)%swept_lookup.
    rewrite Hq in Hp. injection Hp as ->.
    cbn [omap list_omap]. simpl fst. simpl snd.
    rewrite child_name_app, Hends. simpl. by rewrite Hl.
Qed.

(** X10.  Listing is idempotent: on the memory and file backends a second
    listing at the same instant returns the same records as the first and
    leaves the stored contents as the first listing left them. *)
Theorem getAllPastes_twice (e : Env) (now : Z) (w : World) :
  (getStorageMode e = file_mode → disk_wf (disk w) = true) →
  let first := getAllPastes e now w in
  let second := getAllPastes e now first.2 in
  second.1 ≡ₚ first.1 ∧ same_contents first.2 second.2.
Proof.
  intros Hwf first second. subst first second.
  destruct (getStorageMode e) eqn:Hm.
  - unfold getAllPastes. rewrite Hm. simpl. split; [done|apply same_contents_refl].
  - specialize (Hwf eq_refl).
    pose proof (λ q, getAllPastes_file_files e now w q Hm Hwf) as HF'.
    assert (Hwf' : disk_wf (disk (getAllPastes e now w).2) = true).
    { apply (disk_wf_shrink (disk w)); [|done]. intros q c. rewrite HF'.
      by destruct (swept e now (files (disk w)) q). }
    split.
    + rewrite !getAllPastes_file_pastes, !Array_sort_perm by done.
      unfold dir_records.
      etrans; [apply filter_Permutation_bool, omap_Permutation,
                     (kept_entries e now _ _ HF')|].
      rewrite listed_records_of_kept; [done|].
      intros [q c] Hin. by apply elem_of_map_to_list.
    + unfold same_contents.
      assert (Hrest : memStore (getAllPastes e now (getAllPastes e now w).2).2
                        = memStore (getAllPastes e now w).2 ∧
                      redis (getAllPastes e now (getAllPastes e now w).2).2
                        = redis (getAllPastes e now w).2).
      { generalize (getAllPastes e now w).2. intros w1. unfold getAllPastes.
        rewrite Hm. destruct (fs_readdir _ _) as [names d2].
        by destruct (foldl _ _ _). }
      destruct Hrest as [-> ->]. split; [done|]. split; [|done].
      apply map_eq. intros q. rewrite getAllPastes_file_files by done.
      by rewrite (swept_twice e now _ _ HF').
  - unfold getAllPastes. rewrite Hm. simpl.
    split; [done|apply same_contents_refl].
Qed.

Lemma getAllPastes_twice_witness :
  (getAllPastes env_file 6000 (getAllPastes env_file 6000 world_dir).2).1
    ≡ₚ (getAllPastes env_file 6000 world_dir).1 ∧
  same_contents (getAllPastes env_file 6000 world_dir).2
    (getAllPastes env_file 6000 (getAllPastes env_file 6000 world_dir).2).2.
Proof.
  apply (getAllPastes_twice env_file 6000 world_dir).
  intros _. vm_compute. reflexivity.
Defined.

(** ** A saved paste is listed *)

(** X11.  On the memory and file backends a paste whose save resolved
    is in the listing at every time at which it passes the listing test
    ([expiresAt] null, [0], or later than that time); a save on the
    memory backend always resolves. *)
Theorem saved_paste_is_listed (e : Env) (p : Paste) (now0 now : Z) (w : World) :
  getStorageMode e ≠ redis_mode →
  (getStorageMode e = file_mode →
   forallb plain_segment (cwd e) = true ∧ disk_wf (disk w) = true) →
  ((savePaste e p now0 w).1 = Resolved → listed now p = true →
   p ∈ (getAllPastes e now (savePaste e p now0 w).2).1) ∧
  (getStorageMode e = memory_mode → (savePaste e p now0 w).1 = Resolved).
Proof.
  intros Hmode Hwf. split.
  - intros Hok Hl. apply (getAllPastes_lists e (id p)); [done| | |done].
    + intros Hm. destruct (Hwf Hm) as [Hcwd Hd].
      rewrite savePaste_file_world by done. by apply disk_wf_fileSet.
    + by apply savePaste_stored.
  - intros Hm. rewrite savePaste_outcome. unfold save_accepted. by rewrite Hm.
Qed.

Lemma saved_paste_is_listed_witness :
  (savePaste env_file paste_b 1000 world_dir).1 = Resolved ∧
  paste_b ∈ (getAllPastes env_file 9000 (savePaste env_file paste_b 1000 world_dir).2).1.
Proof.
  assert (Hok : (savePaste env_file paste_b 1000 world_dir).1 = Resolved)
    by (vm_compute; reflexivity).
  split; [exact Hok|].
  apply (saved_paste_is_listed env_file paste_b 1000 9000 world_dir).
  - discriminate.
  - intros _. split; vm_compute; reflexivity.
  - exact Hok.
  - reflexivity.
Defined.

(** ** The managed directory *)

Lemma ensureDataDir_dirs e d :
  dirs (ensureDataDir e d) =
    if dir_exists d (DATA_DIR e) || refuses d (DATA_DIR e)
    then dirs d else dirs d ++ [DATA_DIR e].
Proof.
  unfold ensureDataDir, fs_mkdir.
  by destruct (dir_exists d (DATA_DIR e)), (refuses d (DATA_DIR e)).
Qed.

Lemma fileSet_dirs e p d : dirs (fileSet e p d).2 = dirs (ensureDataDir e d).
Proof.
  unfold fileSet. rewrite fileSet_accepted. cbn [snd].
  by destruct (write_leaves e p d).
Qed.

(** X21.  On the file backend [savePaste] first asks for the managed
    directory, then writes the file of the record.  A directory that is
    missing is made when the disk allows it.  The error of [mkdir] is
    swallowed, that of [writeFile] is not: when the directory is missing
    and cannot be made, the save is rejected by the write, and the files
    are as they were. *)
Theorem savePaste_makes_directory (e : Env) (p : Paste) (now : Z) (w : World) :
  getStorageMode e = file_mode →
  oplog (disk (savePaste e p now w).2) =
    oplog (disk w) ++ [OpMkdir (DATA_DIR e); OpWriteFile (getPasteFilePath e (id p))] ∧
  dirs (disk (savePaste e p now w).2) =
    (if dir_exists (disk w) (DATA_DIR e) || refuses (disk w) (DATA_DIR e)
     then dirs (disk w) else dirs (disk w) ++ [DATA_DIR e]) ∧
  (dir_exists (disk w) (DATA_DIR e) = false →
   refuses (disk w) (DATA_DIR e) = true →
   (savePaste e p now w).1 = Rejected ∧
   files (disk (savePaste e p now w).2) = files (disk w)).
Proof.
  intros Hmode. rewrite savePaste_outcome, savePaste_file_world by done.
  cbn [disk]. split; [apply fileSet_oplog|].
  split; [by rewrite fileSet_dirs, ensureDataDir_dirs|].
  intros Hex Href. rewrite fileSet_files.
  unfold save_accepted, write_accepted, write_leaves, write_opens.
  rewrite Hmode, Hex, Href. cbn [negb orb]. by rewrite !andb_false_r.
Qed.

Lemma savePaste_makes_directory_witness :
  dirs (disk (savePaste env_file paste_a 1000 empty_world).2)
    = [["srv"; "app"; "data"; "pastes"]] ∧
  oplog (disk (savePaste env_file paste_a 1000 empty_world).2)
    = [OpMkdir ["srv"; "app"; "data"; "pastes"];
       OpWriteFile ["srv"; "app"; "data"; "pastes"; "V1StGXR8_Z.json"]].
Proof.
  pose proof (savePaste_makes_directory env_file paste_a 1000 empty_world eq_refl)
    as (Hops & Hdirs & _).
  split; [exact Hdirs|exact Hops].
Defined.

(** * The two-backend module *)

Lemma legacy_getPaste_mode e e' id now w :
  getStorageMode e' = (if Legacy.hasRedis e then redis_mode else memory_mode) →
  Legacy.getPaste e id now w = getPaste e' id now w.
Proof.
  intros Hm. unfold Legacy.getPaste, getPaste. rewrite Hm.
  by destruct (Legacy.hasRedis e).
Qed.

Lemma legacy_savePaste_mode e e' p now w :
  getStorageMode e' = (if Legacy.hasRedis e then redis_mode else memory_mode) →
  Legacy.savePaste e p now w = savePaste e' p now w.
Proof.
  intros Hm. unfold Legacy.savePaste, savePaste. rewrite Hm.
  by destruct (Legacy.hasRedis e).
Qed.

Lemma legacy_savePaste_resolved e p now w : (Legacy.savePaste e p now w).1 = Resolved.
Proof. unfold Legacy.savePaste. by destruct (Legacy.hasRedis e). Qed.

Lemma legacy_getPaste_result e key now w :
  (Legacy.getPaste e key now w).1 =
    if Legacy.hasRedis e
    then redis_live ("paste:" +:+ key) now (redis w)
    else match Map_get key (memStore w) with
         | Some p => if expired_on_read now p then None else Some p
         | None => None
         end.
Proof.
  unfold Legacy.getPaste. destruct (Legacy.hasRedis e); [done|].
  rewrite <- memGet_result. by destruct (memGet key now (memStore w)).
Qed.

Lemma legacy_savePaste_getPaste e p now0 now w :
  not_passed now p →
  (Legacy.getPaste e (id p) now (Legacy.savePaste e p now0 w).2).1 = Some p.
Proof.
  intros Hnp. rewrite legacy_getPaste_result. unfold Legacy.savePaste.
  destruct (Legacy.hasRedis e); cbn [snd redis memStore].
  - by apply redisSet_live.
  - unfold memSet. rewrite Map_get_set_eq. by rewrite not_passed_live.
Qed.

(** X12.  The two-backend module of [src/lib/storage.ts] behaves as the
    three-backend module does under the mode [redis] when both
    credentials are set and under the mode [memory] otherwise; so it
    returns a paste right after saving it while its expiry has not
    passed.  Under a configuration without override and without
    credentials the two modules use different stores: what the
    three-backend module saves (to a file) is not seen by the
    two-backend module. *)
Theorem legacy_module (e : Env) (p : Paste) (now0 now : Z) (w : World) :
  (∀ e', getStorageMode e' = (if Legacy.hasRedis e then redis_mode else memory_mode) →
         (∀ key, Legacy.getPaste e key now w = getPaste e' key now w) ∧
         Legacy.savePaste e p now0 w = savePaste e' p now0 w) ∧
  (not_passed now p →
   (Legacy.savePaste e p now0 w).1 = Resolved ∧
   (Legacy.getPaste e (id p) now (Legacy.savePaste e p now0 w).2).1 = Some p) ∧
  (getStorageMode e = file_mode → Legacy.hasRedis e = false →
   (Legacy.getPaste e (id p) now (savePaste e p now0 w).2).1
     = (Legacy.getPaste e (id p) now w).1).
Proof.
  split; [|split].
  - intros e' Hm. split; [intros key; by apply legacy_getPaste_mode|].
    by apply legacy_savePaste_mode.
  - intros Hnp.
    pose (e' := mkEnv (Some (if Legacy.hasRedis e then "redis" else "memory"))
                      None None (cwd e)).
    assert (Hm : getStorageMode e'
                 = (if Legacy.hasRedis e then redis_mode else memory_mode))
      by (unfold e'; destruct (Legacy.hasRedis e); reflexivity).
    assert (Hok : (Legacy.savePaste e p now0 w).1 = Resolved)
      by (unfold Legacy.savePaste; by destruct (Legacy.hasRedis e)).
    split; [done|].
    rewrite (legacy_savePaste_mode e e' p now0 w Hm) in Hok |- *.
    rewrite (legacy_getPaste_mode e e' _ _ _ Hm).
    by apply savePaste_getPaste.
  - intros Hm Hno. rewrite savePaste_file_world by done.
    unfold Legacy.getPaste. rewrite Hno.
    cbn [memStore]. by destruct (memGet (id p) now (memStore w)).
Qed.

Lemma legacy_module_witness :
  (Legacy.getPaste env_redis "V1StGXR8_Z" 4999
     (Legacy.savePaste env_redis paste_a 1000 empty_world).2).1 = Some paste_a ∧
  (Legacy.getPaste env_file "V1StGXR8_Z" 4999
     (savePaste env_file paste_a 1000 empty_world).2).1
    = (Legacy.getPaste env_file "V1StGXR8_Z" 4999 empty_world).1 ∧
  Legacy.savePaste env_file paste_a 1000 empty_world
    = savePaste env_memory paste_a 1000 empty_world.
Proof.
  split; [|split].
  - apply (proj1 (proj2 (legacy_module env_redis paste_a 1000 4999 empty_world))).
    unfold not_passed. simpl. lia.
  - apply (proj2 (proj2 (legacy_module env_file paste_a 1000 4999 empty_world)));
      reflexivity.
  - apply (proj1 (legacy_module env_file paste_a 1000 4999 empty_world) env_memory).
    reflexivity.
Defined.

(** * The paste view *)

Lemma formatExpiry_shape (ms : option Z) (now : Z) :
  (truthy ms = false ∧ formatExpiry ms now = "Never") ∨
  (truthy ms = true ∧ to_number ms ≤ now ∧ formatExpiry ms now = "Expired") ∨
  (truthy ms = true ∧ now < to_number ms ∧
   ∃ x unit, formatExpiry ms now = "in " +:+ x +:+ unit).
Proof.
  unfold formatExpiry. destruct (truthy ms); simpl; [|by left].
  right. destruct (Z.leb_spec (to_number ms - now) 0) as [Hle|Hgt].
  - left. split; [done|]. split; [lia|done].
  - right. split; [done|]. split; [lia|].
    destruct (_ <? 60); [by eexists _, _|].
    destruct (_ <? 24); by eexists _, _.
Qed.

Lemma truthy_false_iff (ms : option Z) : truthy ms = false ↔ ms = None ∨ ms = Some 0.
Proof.
  destruct ms as [t|]; simpl.
  - destruct (Z.eqb_spec t 0) as [->|Hne]; simpl.
    + split; [by right|done].
    + split; [done|]. intros [|[= ->]]; done.
  - split; [by left|done].
Qed.

Lemma truthy_true_iff (ms : option Z) : truthy ms = true ↔ ∃ t, ms = Some t ∧ t ≠ 0.
Proof.
  destruct ms as [t|]; simpl.
  - destruct (Z.eqb_spec t 0) as [->|Hne]; simpl.
    + split; [done|]. by intros (t & [= <-] & Ht).
    + split; [|done]. intros _. by exists t.
  - split; [done|]. by intros (t & ? & _).
Qed.

(** X13.  The expiry label of the view is "Never" exactly for an
    [expiresAt] that is null or [0], and "Expired" exactly for one that
    is not [0] and not later than the current time; so at any instant it
    reads "Expired" for exactly the pastes that the listing drops. *)
Theorem formatExpiry_words (ms : option Z) (now : Z) :
  (formatExpiry ms now = "Never" ↔ ms = None ∨ ms = Some 0) ∧
  (formatExpiry ms now = "Expired" ↔ ∃ t, ms = Some t ∧ t ≠ 0 ∧ t ≤ now) ∧
  (∀ p, expiresAt p = ms →
        (formatExpiry ms now = "Expired" ↔ listed now p = false)).
Proof.
  rewrite <- truthy_false_iff.
  assert (Hexp : (∃ t, ms = Some t ∧ t ≠ 0 ∧ t ≤ now)
                 ↔ truthy ms = true ∧ to_number ms ≤ now).
  { rewrite truthy_true_iff. split.
    - intros (t & -> & H0 & Hle). split; [by exists t|done].
    - intros [(t & -> & H0) Hle]. by exists t. }
  rewrite Hexp. clear Hexp.
  assert (Hlisted : ∀ p, expiresAt p = ms →
            (listed now p = false ↔ truthy ms = true ∧ to_number ms ≤ now)).
  { intros p <-. unfold listed. destruct (truthy (expiresAt p)); simpl.
    - rewrite Z.ltb_ge. split; [by split|by intros [_ ?]].
    - split; [done|by intros [? _]]. }
  destruct (formatExpiry_shape ms now)
    as [[Ht ->]|[(Ht & Hle & ->)|(Ht & Hlt & x & unit & ->)]].
  - split; [done|]. split.
    + split; [done|]. intros [? _]. congruence.
    + intros p Hp. rewrite (Hlisted p Hp). split; [done|]. intros [? _]. congruence.
  - split; [|split].
    + split; [done|congruence].
    + done.
    + intros p Hp. by rewrite (Hlisted p Hp).
  - split; [|split].
    + split; [done|congruence].
    + split; [done|]. intros [_ ?]. lia.
    + intros p Hp. rewrite (Hlisted p Hp). split; [done|]. intros [_ ?]. lia.
Qed.

Lemma formatExpiry_words_witness :
  (formatExpiry (expiresAt paste_a) 5000 = "Expired" ↔ listed 5000 paste_a = false) ∧
  (formatExpiry (expiresAt paste_zero) 5000 = "Never"
   ↔ expiresAt paste_zero = None ∨ expiresAt paste_zero = Some 0).
Proof.
  split.
  - apply (proj2 (proj2 (formatExpiry_words (expiresAt paste_a) 5000)) paste_a).
    reflexivity.
  - apply (proj1 (formatExpiry_words (expiresAt paste_zero) 5000)).
Defined.

(** X14.  For an [expiresAt] in the future the label counts whole units
    of the time that remains, rounded down: minutes below one hour, hours
    from one hour up to one day, days from one day on. *)
Theorem formatExpiry_units (t now : Z) :
  t ≠ 0 → now < t →
  (t - now < 3600000 →
   formatExpiry (Some t) now = "in " +:+ pretty (Z.div (t - now) 60000) +:+ "m") ∧
  (3600000 ≤ t - now < 86400000 →
   formatExpiry (Some t) now = "in " +:+ pretty (Z.div (t - now) 3600000) +:+ "h") ∧
  (86400000 ≤ t - now →
   formatExpiry (Some t) now = "in " +:+ pretty (Z.div (t - now) 86400000) +:+ "d").
Proof.
  intros H0 Hlt. unfold formatExpiry. simpl.
  destruct (Z.eqb_spec t 0) as [|_]; [done|]. simpl.
  destruct (Z.leb_spec (t - now) 0) as [|_]; [lia|].
  assert (Hh : Z.div (Z.div (t - now) 60000) 60 = Z.div (t - now) 3600000)
    by (rewrite Z.div_div by lia; done).
  assert (Hd : Z.div (Z.div (Z.div (t - now) 60000) 60) 24 = Z.div (t - now) 86400000)
    by (rewrite Hh, Z.div_div by lia; done).
  assert (Hm60 : Z.div (t - now) 60000 < 60 ↔ t - now < 3600000).
  { split; intros H.
    - apply Z.nle_gt. intros Hge. apply Z.nle_gt in H. apply H.
      apply Z.div_le_lower_bound; lia.
    - apply Z.div_lt_upper_bound; lia. }
  assert (Hh24 : Z.div (t - now) 3600000 < 24 ↔ t - now < 86400000).
  { split; intros H.
    - apply Z.nle_gt. intros Hge. apply Z.nle_gt in H. apply H.
      apply Z.div_le_lower_bound; lia.
    - apply Z.div_lt_upper_bound; lia. }
  rewrite Hd, Hh.
  destruct (Z.ltb_spec (Z.div (t - now) 60000) 60) as [Hm|Hm];
    destruct (Z.ltb_spec (Z.div (t - now) 3600000) 24) as [Hhr|Hhr];
    (split; [|split]); intros; try done; lia.
Qed.

Lemma formatExpiry_units_witness :
  formatExpiry (Some 1700000600000) 1700000000000 = "in 10m" ∧
  formatExpiry (Some 1700003600000) 1700000000001 = "in 59m" ∧
  formatExpiry (Some 1700086400000) 1700000000001 = "in 23h" ∧
  formatExpiry (Some 1700604800000) 1700000000000 = "in 7d".
Proof.
  split; [|split; [|split]].
  - apply (proj1 (formatExpiry_units 1700000600000 1700000000000
                    ltac:(lia) ltac:(lia))). lia.
  - apply (proj1 (formatExpiry_units 1700003600000 1700000000001
                    ltac:(lia) ltac:(lia))). lia.
  - apply (proj1 (proj2 (formatExpiry_units 1700086400000 1700000000001
                    ltac:(lia) ltac:(lia)))). lia.
  - apply (proj2 (proj2 (formatExpiry_units 1700604800000 1700000000000
                    ltac:(lia) ltac:(lia)))). lia.
Defined.

Lemma String_split_length sep s :
  length (String_split sep s) = S (count_char sep s).
Proof.
  induction s as [|c s IH]; simpl; [done|].
  destruct (Ascii.eqb c sep); simpl; [by rewrite IH|].
  destruct (String_split sep s) as [|seg rest]; [done|]. exact IH.
Qed.

Lemma count_char_app c s1 s2 :
  count_char c (s1 +:+ s2) = (count_char c s1 + count_char c s2)%nat.
Proof. induction s1 as [|c' s1 IH]; simpl; [done|]. rewrite IH. lia. Qed.

(** X15.  The number of lines the view shows is one more than the number
    of newline characters of the content: an empty paste has one line, a
    trailing newline opens one more (empty) line, and joining two texts
    with a newline adds up their line counts. *)
Theorem lineCount_newlines (a b : string) :
  lineCount a = S (count_char "010" a) ∧
  lineCount "" = 1%nat ∧
  lineCount (a +:+ String "010" "") = S (lineCount a) ∧
  lineCount (a +:+ String "010" b) = (lineCount a + lineCount b)%nat.
Proof.
  unfold lineCount. rewrite !String_split_length, !count_char_app. simpl.
  repeat split; lia.
Qed.

(** * The HTTP route and the paste page *)

(** ** Trimming *)

Lemma trimStart_length s : (String.length (trimStart s) ≤ String.length s)%nat.
Proof.
  induction s as [|c s IH]; simpl; [done|].
  destruct (is_space c); simpl; lia.
Qed.

Lemma trimEnd_length s : (String.length (trimEnd s) ≤ String.length s)%nat.
Proof.
  induction s as [|c s IH]; simpl; [done|].
  destruct (trimEnd s); [destruct (is_space c)|]; simpl in *; lia.
Qed.

Lemma trim_length s : (String.length (trim s) ≤ String.length s)%nat.
Proof.
  unfold trim. pose proof (trimEnd_length (trimStart s)).
  pose proof (trimStart_length s). lia.
Qed.

Lemma trimEnd_cons c s :
  is_space c = false → trimEnd (String c s) = String c (trimEnd s).
Proof. intros Hc. simpl. rewrite Hc. by destruct (trimEnd s). Qed.

Lemma trimStart_shape s :
  trimStart s = "" ∨ ∃ c s', trimStart s = String c s' ∧ is_space c = false.
Proof.
  induction s as [|c s IH]; simpl; [by left|].
  destruct (is_space c) eqn:Hc; [done|]. right. by exists c, s.
Qed.

Lemma trimEnd_idem s : trimEnd (trimEnd s) = trimEnd s.
Proof.
  induction s as [|c s IH]; simpl; [done|].
  destruct (trimEnd s) as [|c' t] eqn:Ht.
  - destruct (is_space c) eqn:Hc; simpl; [done|]. by rewrite Hc.
  - change (trimEnd (String c (String c' t)) = String c (String c' t)).
    simpl. simpl in IH. by rewrite IH.
Qed.

Lemma trim_idem s : trim (trim s) = trim s.
Proof.
  unfold trim. destruct (trimStart_shape s) as [->|(c & s' & -> & Hc)]; [done|].
  rewrite (trimEnd_cons c s' Hc). simpl. rewrite Hc.
  change (trimEnd (String c (trimEnd s')) = String c (trimEnd s')).
  by rewrite (trimEnd_cons c _ Hc), trimEnd_idem.
Qed.

Lemma trimStart_blank s : trimStart s = "" ↔ string_forall is_space s = true.
Proof.
  induction s as [|c s IH]; simpl; [done|].
  destruct (is_space c); simpl; [done|]. split; discriminate.
Qed.

Lemma trimEnd_empty s : trimEnd s = "" ↔ string_forall is_space s = true.
Proof.
  induction s as [|c s IH]; simpl; [done|].
  destruct (trimEnd s) as [|c' t].
  - destruct (is_space c); simpl; [done|]. split; discriminate.
  - split; [discriminate|]. intros [_ Hs]%andb_true_iff.
    apply IH in Hs. discriminate.
Qed.

Lemma trim_blank s : trim s = "" ↔ string_forall is_space s = true.
Proof.
  unfold trim. rewrite trimEnd_empty. split.
  - intros Hsp. destruct (trimStart_shape s) as [He|(c & s' & He & Hc)].
    + by apply trimStart_blank.
    + rewrite He in Hsp. simpl in Hsp. by rewrite Hc in Hsp.
  - intros Hs. apply trimStart_blank in Hs. by rewrite Hs.
Qed.

Lemma substring_length n s : (String.length (String.substring 0 n s) ≤ n)%nat.
Proof.
  revert s. induction n as [|n IH]; intros [|c s]; simpl; try lia.
  specialize (IH s). lia.
Qed.

Lemma content_check c :
  String.eqb c "" || (String.length (trim c) =? 0)%nat = true ↔ blank (Some c).
Proof.
  simpl. rewrite <- trim_blank, orb_true_iff, String.eqb_eq, Nat.eqb_eq. split.
  - intros [->|Hlen]; [done|]. by destruct (trim c).
  - intros ->. by right.
Qed.

(** ** Creating a paste *)

Lemma EXPIRY_OPTIONS_own key v :
  EXPIRY_OPTIONS key = Own v →
  v = None ∨ ∃ ttl, v = Some ttl ∧ 600000 ≤ ttl ≤ 604800000.
Proof.
  unfold EXPIRY_OPTIONS.
  repeat (match goal with
          | |- context [String.eqb key ?k] => destruct (String.eqb key k)
          end;
          [intros [= <-]; first [by left | right; eexists; split; [done|lia]]|]).
  by destruct (existsb _ _).
Qed.

Lemma ttl_of_range key ttl : ttl_of key = Some ttl → 600000 ≤ ttl ≤ 604800000.
Proof.
  unfold ttl_of. destruct (EXPIRY_OPTIONS key) as [v| |] eqn:Hk; [|done..].
  intros ->. by destruct (EXPIRY_OPTIONS_own key _ Hk) as [|(t & [= <-] & ?)].
Qed.

Lemma EXPIRY_OPTIONS_inherited key :
  EXPIRY_OPTIONS key = Inherited ↔ key ∈ Object_prototype_names.
Proof.
  assert (Hown : ∀ k, k ∈ ["never"; "10m"; "1h"; "1d"; "1w"] →
                      k ∉ Object_prototype_names).
  { intros k Hk Hin. apply list_elem_of_In in Hk, Hin. simpl in Hk, Hin.
    repeat (destruct Hk as [<-|Hk];
            [repeat (destruct Hin as [Hin|Hin]; [discriminate|]); done|]).
    done. }
  unfold EXPIRY_OPTIONS.
  repeat (match goal with
          | |- context [String.eqb key ?k] =>
              destruct (String.eqb_spec key k) as [->|?]
          end;
          [split; [done|]; intros Hin; exfalso; revert Hin; apply Hown;
           apply list_elem_of_In; simpl; tauto|]).
  destruct (existsb (String.eqb key) Object_prototype_names) eqn:Hex.
  - split; [|done]. intros _. apply existsb_exists in Hex as (k & Hin & Hk).
    apply String.eqb_eq in Hk. subst k. by apply list_elem_of_In.
  - split; [done|]. intros Hin. apply list_elem_of_In in Hin.
    assert (existsb (String.eqb key) Object_prototype_names = true)
      by (apply existsb_exists; exists key; by rewrite String.eqb_refl).
    congruence.
Qed.

Lemma POST_passes e body c key fresh now1 now2 now3 w :
  passes_checks body c key →
  Route.POST e (Some body) fresh now1 now2 now3 w =
    let p := created_paste body c key fresh now1 now2 in
    (Route.mkResponse 201 (Route.IdOf fresh),
     match EXPIRY_OPTIONS key with
     | Inherited =>
         Route.StoreAndUntyped (id p) (title p) (content p) (language p)
                               (createdAt p) w
     | _ => Route.Store (Legacy.savePaste e p now3 w).2
     end).
Proof.
  intros (Hc & Hnb & Hlen & Hk). unfold Route.POST. rewrite Hc, Hk.
  destruct (String.eqb c "" || (String.length (trim c) =? 0)%nat) eqn:Hb;
    [by apply content_check in Hb|].
  destruct (Z.ltb_spec 500000 (Z.of_nat (String.length c))); [lia|].
  cbv zeta. unfold created_paste, ttl_of.
  destruct (EXPIRY_OPTIONS key) as [v| |] eqn:Hopt; [| |].
  - destruct (EXPIRY_OPTIONS_own key v Hopt) as [->|(ttl & -> & Hr)].
    + cbn [truthy to_number fmap option_fmap option_map].
      unfold Legacy.savePaste. by destruct (Legacy.hasRedis e).
    + assert (Htr : truthy (Some ttl) = true)
        by (simpl; destruct (Z.eqb_spec ttl 0); [lia|done]).
      rewrite Htr. cbn [to_number fmap option_fmap option_map].
      unfold Legacy.savePaste. by destruct (Legacy.hasRedis e).
  - done.
  - cbn [truthy to_number fmap option_fmap option_map].
    unfold Legacy.savePaste. by destruct (Legacy.hasRedis e).
Qed.

Lemma POST_accepts e body c key fresh now1 now2 now3 w :
  acceptable body c key →
  Route.POST e (Some body) fresh now1 now2 now3 w =
    (Route.mkResponse 201 (Route.IdOf fresh),
     Route.Store
       (Legacy.savePaste e (created_paste body c key fresh now1 now2) now3 w).2).
Proof.
  intros [Hp Hinh]. rewrite (POST_passes _ _ c key) by done. cbv zeta.
  by destruct (EXPIRY_OPTIONS key).
Qed.

(** An answer other than 201 comes with the store as it was. *)
Lemma POST_not_created e req fresh now1 now2 now3 w :
  (∃ body c key, req = Some body ∧ passes_checks body c key) ∨
  (∃ r, Route.POST e req fresh now1 now2 now3 w = (r, Route.Store w) ∧
        Route.status r ≠ 201).
Proof.
  unfold Route.POST. destruct req as [body|]; [|right; by eexists].
  destruct (Route.body_content body) as [c|] eqn:Hc; [|right; by eexists].
  destruct (String.eqb c "" || (String.length (trim c) =? 0)%nat) eqn:Hb;
    [right; by eexists|].
  destruct (Z.ltb_spec 500000 (Z.of_nat (String.length c)));
    [right; by eexists|].
  destruct (Route.body_expiry body) as [key|] eqn:Hk; [|right; by eexists].
  left. exists body, c, key. split; [done|]. repeat split; try done.
  intros Hbl%content_check. congruence.
Qed.

(** X16.  The POST handler answers 400 "Content is required" when the
    content is not a string or is white space only, and 400 "Content too
    large" when the content, before trimming, has more than 500000
    characters; whenever its answer is not 201 it has written nothing.
    It answers 500 when the body cannot be read. *)
Theorem POST_rejects (e : Env) (body : Route.Body) (fresh : string)
    (now1 now2 now3 : Z) (w : World) :
  (blank (Route.body_content body) →
   Route.POST e (Some body) fresh now1 now2 now3 w
     = (Route.mkResponse 400 (Route.ErrorOf "Content is required"),
        Route.Store w)) ∧
  (∀ c, Route.body_content body = Some c → ¬ blank (Some c) →
        500000 < Z.of_nat (String.length c) →
        Route.POST e (Some body) fresh now1 now2 now3 w
          = (Route.mkResponse 400
               (Route.ErrorOf "Content too large (max 500KB)"),
             Route.Store w)) ∧
  (∀ req r a, Route.POST e req fresh now1 now2 now3 w = (r, a) →
              Route.status r ≠ 201 → a = Route.Store w) ∧
  Route.POST e None fresh now1 now2 now3 w
    = (Route.mkResponse 500 (Route.ErrorOf "Internal server error"),
       Route.Store w).
Proof.
  split; [|split; [|split]].
  - unfold Route.POST. destruct (Route.body_content body) as [c|]; [|done].
    intros Hbl%content_check. by rewrite Hbl.
  - intros c Hc Hnb Hlen. unfold Route.POST. rewrite Hc.
    destruct (String.eqb c "" || (String.length (trim c) =? 0)%nat) eqn:Hb;
      [by apply content_check in Hb|].
    destruct (Z.ltb_spec 500000 (Z.of_nat (String.length c))); [done|lia].
  - intros req r a HP Hst.
    destruct (POST_not_created e req fresh now1 now2 now3 w)
      as [(b & c & key & -> & Hp)|(r' & HP' & _)].
    + rewrite (POST_passes _ _ c key) in HP by done.
      injection HP as <- _. done.
    + rewrite HP' in HP. by injection HP as _ <-.
  - reflexivity.
Qed.

Lemma POST_rejects_witness :
  Route.POST env_file (Some body_blank) "V1StGXR8_Z" 1000 1000 1001 world_dir
    = (Route.mkResponse 400 (Route.ErrorOf "Content is required"),
       Route.Store world_dir).
Proof.
  apply (proj1 (POST_rejects env_file body_blank "V1StGXR8_Z" 1000 1000 1001 world_dir)).
  reflexivity.
Defined.

Lemma created_title_length body c key fresh now1 now2 :
  title (created_paste body c key fresh now1 now2) ≠ "" ∧
  (String.length (title (created_paste body c key fresh now1 now2)) ≤ 200)%nat.
Proof.
  unfold created_paste. simpl.
  destruct (Route.body_title body) as [t|]; simpl; [|split; [done|lia]].
  destruct (String.eqb_spec (String.substring 0 200 t) "") as [_|Hne].
  - split; [done|]. simpl. lia.
  - split; [done|]. apply substring_length.
Qed.

(** X17.  Whenever the POST handler answers 201, the record it saved
    (through [savePaste] of [@/lib/storage]) has the fresh id, a content
    that is the trimmed request content (so it is not empty, has no white
    space at either end and at most 500000 characters), a non-empty title
    of at most 200 characters and [createdAt] equal to the first clock
    reading.  Unless the expiry key names a member inherited from
    [Object.prototype], the record is a paste whose [expiresAt] is null
    or lies between ten minutes and one week after the second clock
    reading, and the save resolved; for an inherited key the handler
    answers 201 as well and the record it saved is not a paste. *)
Theorem POST_created_paste (e : Env) (req : option Route.Body) (fresh : string)
    (now1 now2 now3 : Z) (w : World) (r : Route.Response) (a : Route.After) :
  Route.POST e req fresh now1 now2 now3 w = (r, a) →
  Route.status r = 201 →
  ∃ body c key p,
    req = Some body ∧ Route.body_content body = Some c ∧
    Route.body_expiry body = Some key ∧
    r = Route.mkResponse 201 (Route.IdOf fresh) ∧
    id p = fresh ∧
    content p = trim c ∧ trim (content p) = content p ∧ content p ≠ "" ∧
    Z.of_nat (String.length (content p)) ≤ 500000 ∧
    title p ≠ "" ∧ (String.length (title p) ≤ 200)%nat ∧
    language p = default "plaintext" (Route.body_language body) ∧
    createdAt p = now1 ∧
    (EXPIRY_OPTIONS key ≠ Inherited →
       a = Route.Store (Legacy.savePaste e p now3 w).2 ∧
       (Legacy.savePaste e p now3 w).1 = Resolved ∧
       ∀ t, expiresAt p = Some t → now2 + 600000 ≤ t ≤ now2 + 604800000) ∧
    (EXPIRY_OPTIONS key = Inherited →
       a = Route.StoreAndUntyped (id p) (title p) (content p) (language p)
                                 (createdAt p) w).
Proof.
  intros HP Hst.
  destruct (POST_not_created e req fresh now1 now2 now3 w)
    as [(body & c & key & -> & Hp)|(r' & HP' & Hne)];
    [|rewrite HP' in HP; injection HP as <- _; done].
  rewrite (POST_passes _ _ c key) in HP by done. cbv zeta in HP.
  injection HP as <- <-.
  destruct Hp as (Hc & Hnb & Hlen & Hk).
  exists body, c, key, (created_paste body c key fresh now1 now2).
  split; [done|]. split; [done|]. split; [done|]. split; [done|].
  split; [done|]. split; [done|]. split; [apply trim_idem|].
  split; [by intros ?%trim_blank|].
  split; [pose proof (trim_length c); simpl; lia|].
  split; [apply created_title_length|]. split; [apply created_title_length|].
  split; [done|]. split; [done|]. split.
  - intros Hinh. split; [by destruct (EXPIRY_OPTIONS key)|].
    split; [apply legacy_savePaste_resolved|].
    intros t. simpl. destruct (ttl_of key) as [ttl|] eqn:Httl; [|done].
    intros [= <-]. apply ttl_of_range in Httl. lia.
  - intros Hinh. by rewrite Hinh.
Qed.

Lemma POST_created_paste_witness :
  ∃ body c key p,
    Some body_hello = Some body ∧ Route.body_content body = Some c ∧
    Route.body_expiry body = Some key ∧
    Route.mkResponse 201 (Route.IdOf "V1StGXR8_Z")
      = Route.mkResponse 201 (Route.IdOf "V1StGXR8_Z") ∧
    id p = "V1StGXR8_Z" ∧
    content p = trim c ∧ trim (content p) = content p ∧ content p ≠ "" ∧
    Z.of_nat (String.length (content p)) ≤ 500000 ∧
    title p ≠ "" ∧ (String.length (title p) ≤ 200)%nat ∧
    language p = default "plaintext" (Route.body_language body) ∧
    createdAt p = 1000 ∧
    (EXPIRY_OPTIONS key ≠ Inherited →
       Route.Store
         (Legacy.savePaste env_file
            (created_paste body_hello "  hello
" "10m" "V1StGXR8_Z" 1000 1001) 1002 empty_world).2
         = Route.Store (Legacy.savePaste env_file p 1002 empty_world).2 ∧
       (Legacy.savePaste env_file p 1002 empty_world).1 = Resolved ∧
       ∀ t, expiresAt p = Some t → 1001 + 600000 ≤ t ≤ 1001 + 604800000) ∧
    (EXPIRY_OPTIONS key = Inherited →
       Route.Store
         (Legacy.savePaste env_file
            (created_paste body_hello "  hello
" "10m" "V1StGXR8_Z" 1000 1001) 1002 empty_world).2
         = Route.StoreAndUntyped (id p) (title p) (content p) (language p)
                                 (createdAt p) empty_world).
Proof.
  apply (POST_created_paste env_file (Some body_hello) "V1StGXR8_Z" 1000 1001 1002
           empty_world); reflexivity.
Defined.

(** X18.  A request that passes the checks is answered 201 with the fresh
    id.  The expiry key names an inherited member exactly when it is one
    of the property names of [Object.prototype].  When it does not, the
    saved paste expires ten minutes, one hour, one day or one week after
    the second clock reading for the expiry keys [10m], [1h], [1d] and
    [1w]; for every other key, unknown ones included, it never expires.
    When it does, the saved record is not a paste: the store is the one
    before the request and a record outside [Paste]. *)
Theorem POST_expiry_options (e : Env) (body : Route.Body) (c key fresh : string)
    (now1 now2 now3 : Z) (w : World) :
  passes_checks body c key →
  (Route.POST e (Some body) fresh now1 now2 now3 w).1
    = Route.mkResponse 201 (Route.IdOf fresh) ∧
  (EXPIRY_OPTIONS key = Inherited ↔ key ∈ Object_prototype_names) ∧
  (EXPIRY_OPTIONS key ≠ Inherited →
   ∃ p, Route.POST e (Some body) fresh now1 now2 now3 w
          = (Route.mkResponse 201 (Route.IdOf fresh),
             Route.Store (Legacy.savePaste e p now3 w).2) ∧
        expiresAt p =
          if String.eqb key "10m" then Some (now2 + 600000)
          else if String.eqb key "1h" then Some (now2 + 3600000)
          else if String.eqb key "1d" then Some (now2 + 86400000)
          else if String.eqb key "1w" then Some (now2 + 604800000)
          else None) ∧
  (EXPIRY_OPTIONS key = Inherited →
   ∃ t l, Route.POST e (Some body) fresh now1 now2 now3 w
            = (Route.mkResponse 201 (Route.IdOf fresh),
               Route.StoreAndUntyped fresh t (trim c) l now1 w)).
Proof.
  intros Hp. split; [by rewrite (POST_passes _ _ c key)|].
  split; [apply EXPIRY_OPTIONS_inherited|]. split.
  - intros Hinh. exists (created_paste body c key fresh now1 now2).
    split; [by apply POST_accepts|].
    simpl. unfold ttl_of, EXPIRY_OPTIONS.
    destruct (String.eqb_spec key "never") as [->|_]; [done|].
    destruct (String.eqb key "10m"); [done|].
    destruct (String.eqb key "1h"); [done|].
    destruct (String.eqb key "1d"); [done|].
    destruct (String.eqb key "1w"); [done|].
    by destruct (existsb _ _).
  - intros Hinh. rewrite (POST_passes _ _ c key) by done. cbv zeta.
    rewrite Hinh. by eexists _, _.
Qed.

Lemma POST_expiry_options_witness :
  (∃ p, Route.POST env_file (Some body_hello) "V1StGXR8_Z" 1000 1001 1002 empty_world
          = (Route.mkResponse 201 (Route.IdOf "V1StGXR8_Z"),
             Route.Store (Legacy.savePaste env_file p 1002 empty_world).2) ∧
        expiresAt p = Some (1001 + 600000)) ∧
  (∃ t l, Route.POST env_file (Some body_inherited) "V1StGXR8_Z" 1000 1001 1002
            empty_world
            = (Route.mkResponse 201 (Route.IdOf "V1StGXR8_Z"),
               Route.StoreAndUntyped "V1StGXR8_Z" t "hello" l 1000 empty_world)).
Proof.
  split.
  - apply (POST_expiry_options env_file body_hello "  hello
" "10m" "V1StGXR8_Z" 1000 1001 1002 empty_world).
    + repeat split; try reflexivity; discriminate.
    + discriminate.
  - apply (POST_expiry_options env_file body_inherited "hello" "constructor"
             "V1StGXR8_Z" 1000 1001 1002 empty_world).
    + repeat split; try reflexivity; discriminate.
    + reflexivity.
Defined.

(** ** Reading a paste back *)

Lemma GET_of_getPaste e k now w :
  k ≠ "" →
  Route.GET e (Some k) now w =
    (match (Legacy.getPaste e k now w).1 with
     | Some p => Route.mkResponse 200 (Route.PasteOf p)
     | None => Route.mkResponse 404 (Route.ErrorOf "Paste not found or expired")
     end, (Legacy.getPaste e k now w).2).
Proof.
  intros Hk. unfold Route.GET. destruct (String.eqb_spec k "") as [|_]; [done|].
  by destruct (Legacy.getPaste e k now w) as [[p|] w'].
Qed.

Lemma PastePage_of_getPaste e k now w :
  PastePage e k now w =
    (match (Legacy.getPaste e k now w).1 with
     | Some p => PasteViewPage p
     | None => NotFoundPage
     end, (Legacy.getPaste e k now w).2).
Proof. unfold PastePage. by destruct (Legacy.getPaste e k now w) as [[p|] w']. Qed.

(** X19.  A paste created by an accepted POST (one whose expiry key
    names no inherited member) can be read back under the returned id on
    both backends of the module the route imports: until its expiry
    passes, GET answers 200 with the created record and the page shows
    it. *)
Theorem POST_then_GET (e : Env) (body : Route.Body) (c key fresh : string)
    (now1 now2 now3 now : Z) (w : World) :
  acceptable body c key → fresh ≠ "" →
  not_passed now (created_paste body c key fresh now1 now2) →
  ∃ w', Route.POST e (Some body) fresh now1 now2 now3 w
          = (Route.mkResponse 201 (Route.IdOf fresh), Route.Store w') ∧
        (Route.GET e (Some fresh) now w').1
          = Route.mkResponse 200
              (Route.PasteOf (created_paste body c key fresh now1 now2)) ∧
        (PastePage e fresh now w').1
          = PasteViewPage (created_paste body c key fresh now1 now2).
Proof.
  intros Hacc Hfresh Hnp.
  exists (Legacy.savePaste e (created_paste body c key fresh now1 now2) now3 w).2.
  split; [by apply POST_accepts|].
  rewrite GET_of_getPaste, PastePage_of_getPaste by done. cbn [fst].
  pose proof (legacy_savePaste_getPaste e (created_paste body c key fresh now1 now2)
                now3 now w Hnp) as Hget.
  cbn [id created_paste] in Hget. by rewrite Hget.
Qed.

Lemma POST_then_GET_witness :
  ∃ w', Route.POST env_redis (Some body_hello) "V1StGXR8_Z" 1000 1001 1002 empty_world
          = (Route.mkResponse 201 (Route.IdOf "V1StGXR8_Z"), Route.Store w') ∧
        (Route.GET env_redis (Some "V1StGXR8_Z") 601000 w').1
          = Route.mkResponse 200
              (Route.PasteOf (created_paste body_hello "  hello
" "10m" "V1StGXR8_Z" 1000 1001)) ∧
        (PastePage env_redis "V1StGXR8_Z" 601000 w').1
          = PasteViewPage (created_paste body_hello "  hello
" "10m" "V1StGXR8_Z" 1000 1001).
Proof.
  apply (POST_then_GET env_redis body_hello "  hello
" "10m" "V1StGXR8_Z" 1000 1001 1002 601000 empty_world).
  - repeat split; try reflexivity; discriminate.
  - discriminate.
  - unfold not_passed. simpl. lia.
Defined.

(** X20.  GET answers 400 without touching the store when the id is
    missing or empty.  For any other id it answers 200 with a paste
    exactly when the page shows that paste, 404 exactly when the page is
    the not-found page, and leaves the same store as the page does.  The
    route reads through [getPaste] of [@/lib/storage]: the remote service
    when both credentials are set, whatever [STORAGE_MODE] says, and the
    in-memory map otherwise; in the second case a paste it returns has
    not expired. *)
Theorem GET_answers (e : Env) (id : option string) (now : Z) (w : World) :
  (id = None ∨ id = Some "" →
   Route.GET e id now w = (Route.mkResponse 400 (Route.ErrorOf "id is required"), w)) ∧
  (∀ k, id = Some k → k ≠ "" →
     (Route.GET e id now w).2 = (PastePage e k now w).2 ∧
     (∀ p, (Route.GET e id now w).1 = Route.mkResponse 200 (Route.PasteOf p)
           ↔ (PastePage e k now w).1 = PasteViewPage p) ∧
     ((Route.GET e id now w).1
        = Route.mkResponse 404 (Route.ErrorOf "Paste not found or expired")
      ↔ (PastePage e k now w).1 = NotFoundPage) ∧
     (∀ p, (Route.GET e id now w).1 = Route.mkResponse 200 (Route.PasteOf p) ↔
           (if Legacy.hasRedis e
            then redis_live ("paste:" +:+ k) now (redis w)
            else match Map_get k (memStore w) with
                 | Some q => if expired_on_read now q then None else Some q
                 | None => None
                 end) = Some p) ∧
     (Legacy.hasRedis e = false →
      ∀ p, (Route.GET e id now w).1 = Route.mkResponse 200 (Route.PasteOf p) →
           expired_on_read now p = false)).
Proof.
  split.
  - intros [-> | ->]; reflexivity.
  - intros k -> Hk. rewrite GET_of_getPaste, PastePage_of_getPaste by done.
    cbn [fst snd]. split; [done|].
    pose proof (legacy_getPaste_result e k now w) as Hres.
    destruct (Legacy.getPaste e k now w).1 as [q|].
    + split; [|split; [|split]].
      * intros p. split; by intros [= ->].
      * split; discriminate.
      * intros p. rewrite <- Hres. split; by intros [= ->].
      * intros Hno p [= <-]. rewrite Hno in Hres.
        destruct (Map_get k (memStore w)) as [p|]; [|done].
        destruct (expired_on_read now p) eqn:Hexp; [done|]. by injection Hres as ->.
    + split; [|split; [|split]].
      * intros p. split; discriminate.
      * done.
      * intros p. rewrite <- Hres. split; discriminate.
      * intros _ p. discriminate.
Qed.

Lemma GET_answers_witness :
  Route.GET env_file (Some "") 2000 world_dir
    = (Route.mkResponse 400 (Route.ErrorOf "id is required"), world_dir) ∧
  ((Route.GET env_file (Some "V1StGXR8_Z") 2000 world_ties).1
     = Route.mkResponse 200 (Route.PasteOf paste_a)
   ↔ (PastePage env_file "V1StGXR8_Z" 2000 world_ties).1 = PasteViewPage paste_a).
Proof.
  split.
  - apply (proj1 (GET_answers env_file (Some "") 2000 world_dir)). by right.
  - apply (proj2 (GET_answers env_file (Some "V1StGXR8_Z") 2000 world_ties)
             "V1StGXR8_Z" eq_refl). discriminate.
Defined.
